(** * A Tiny Tractor: button decoder, horn/engine audio and engine state machine

    Shallow embedding of [button_manager.c], [sound_manager.c],
    [tractor_model.c] and of the loop, the timer interrupt and the outputs of
    [main.c] (ATtiny85 firmware), followed by their properties.

    Conventions.
    - A [uint8_t], [uint16_t] or [uint32_t] value is a [Z]; every store that
      can leave the range of its C type is wrapped with [u8], [u16] or [u32].
    - The module-level variables of the C files ([button_level],
      [button_clicked], [horn], [sample_index], [tractor]) are records that
      the functions receive and return; so are the registers and pins that
      [main.c] writes, and the ADC readings are arguments.
    - The wavetables [ENGINE_RUNNING] and [TRACTOR_HORN] and their sizes come
      from generated headers ([engine_running.h], [tractor_horn.h]); they are
      parameters of the audio functions. *)

From Stdlib Require Import ZArith List Bool Lia.
Import ListNotations.

Local Open Scope Z_scope.

(** ** Fixed-width integers *)

Definition u8 (x : Z) : Z := x mod 256.
Definition u16 (x : Z) : Z := x mod 65536.
Definition u32 (x : Z) : Z := x mod 4294967296.

(** ** button_manager *)

Definition BUTTON_ON : Z := 0.
Definition BUTTON_START : Z := 1.
Definition BUTTON_HORN : Z := 2.
Definition BUTTON_COUNT : Z := 3.

(** [#define BM(button) (1 << (button))] *)
Definition BM (button : Z) : Z := Z.shiftl 1 button.

Definition ADC_THRESHOLD_OFF : Z := 23.
Definition ADC_THRESHOLD_ON : Z := 63.
Definition ADC_THRESHOLD_ON_HORN : Z := 99.
Definition ADC_THRESHOLD_ON_START : Z := 186.

(** The two static bytes of the button manager. *)
Record Buttons : Type := mkButtons {
  button_level : Z;
  button_clicked : Z
}.

Definition buttons_init : Buttons :=
  {| button_level := 0; button_clicked := 0 |}.

Definition button_new_level (adc_value : Z) : Z :=
  if adc_value <=? ADC_THRESHOLD_OFF then 0
  else if adc_value <=? ADC_THRESHOLD_ON then BM BUTTON_ON
  else if adc_value <=? ADC_THRESHOLD_ON_HORN then
    Z.lor (BM BUTTON_ON) (BM BUTTON_HORN)
  else if adc_value <=? ADC_THRESHOLD_ON_START then
    Z.lor (BM BUTTON_ON) (BM BUTTON_START)
  else Z.lor (Z.lor (BM BUTTON_ON) (BM BUTTON_START)) (BM BUTTON_HORN).

Definition button_set_adc_value (adc_value : Z) (b : Buttons) : Buttons :=
  let new_level := button_new_level adc_value in
  {| button_clicked :=
       u8 (Z.lor (button_clicked b)
             (Z.land (Z.land (Z.lnot (button_level b)) new_level)
                     (Z.shiftl 1 BUTTON_COUNT - 1)));
     button_level := new_level |}.

Definition button_is_pressed (button : Z) (b : Buttons) : bool :=
  negb (Z.land (button_level b) (BM button) =? 0).

(** Returns the click flag and the state with that flag cleared. *)
Definition button_is_clicked (button : Z) (b : Buttons) : bool * Buttons :=
  let mask := u8 (BM button) in
  let clicked := negb (Z.land (button_clicked b) mask =? 0) in
  (clicked,
   {| button_level := button_level b;
      button_clicked := u8 (Z.land (button_clicked b) (Z.lnot mask)) |}).

(** ** sound_manager *)

Definition TRACTOR_STATUS_UPDATE_CYCLE : Z := 40.

Definition HORN_NOTE_DURATION : Z := u8 (160 / TRACTOR_STATUS_UPDATE_CYCLE).
Definition HORN_PAUSE_DURATION : Z := u8 (40 / TRACTOR_STATUS_UPDATE_CYCLE).

Definition MAX_SONG_SIZE : nat := 30.

Record Song : Type := mkSong {
  size : Z;
  note : list Z
}.

(** [#define SONG(...) {sizeof((uint8_t[]){__VA_ARGS__}), {__VA_ARGS__}}]:
    the array initialiser pads the remaining slots with zeros. *)
Definition SONG (notes : list Z) : Song :=
  {| size := Z.of_nat (length notes);
     note := notes ++ repeat 0 (MAX_SONG_SIZE - length notes) |}.

Definition SONG_SINGLE_HONK : Z := 0.
Definition SONG_DOUBLE_HONK : Z := 1.
Definition SONG_DIXIE : Z := 2.
Definition SONG_COUNT : Z := 3.

Definition SONG_LIBRARY : list Song :=
  [ SONG [64; 64; 64];
    SONG [64; 64; 0; 64; 64];
    SONG [64; 80; 64; 64; 0; 64; 64; 0; 64; 72; 80; 85;
          96; 96; 0; 96; 96; 0; 96; 96; 0; 80; 80] ].

(** [{0, {0}}] *)
Definition empty_song : Song :=
  {| size := 0; note := repeat 0 MAX_SONG_SIZE |}.

(** [s.note[i]]; a slot outside the array (undefined in C) reads as 0. *)
Definition note_at (s : Song) (i : Z) : Z := nth (Z.to_nat i) (note s) 0.

Record Horn : Type := mkHorn {
  song : Song;
  current_note : Z;
  note_counter : Z;
  index_increment : Z;
  playing : bool
}.

Definition horn_init : Horn :=
  {| song := empty_song; current_note := 0; note_counter := 0;
     index_increment := 0; playing := false |}.

Record SampleIndex : Type := mkSampleIndex {
  engine : Z;
  horn : Z
}.

Definition sample_index_init : SampleIndex := {| engine := 0; horn := 0 |}.

(** [AVR_PGM_READ_BYTE(TABLE[i])]: one byte of a wavetable.  The tables are
    [uint8_t] arrays, so whatever the list holds is read modulo 256; a slot
    past the end of the table (undefined in C) reads as 0. *)
Definition AVR_PGM_READ_BYTE (table : list Z) (i : Z) : Z :=
  u8 (nth (Z.to_nat i) table 0).

Section AudioSample.

Variable ENGINE_RUNNING : list Z.
Variable ENGINE_RUNNING_SIZE : Z.
Variable TRACTOR_HORN : list Z.
Variable TRACTOR_HORN_SIZE : Z.

(** First block of [audio_get_next_sample]: the new engine index and the
    engine sample. *)
Definition engine_track (engine_speed : Z) (si : SampleIndex) : Z * Z :=
  if negb (engine_speed =? 0) then
    let e1 := u16 (engine si + Z.shiftr engine_speed 2) in
    let e2 := if e1 >=? Z.shiftl ENGINE_RUNNING_SIZE 4
              then u16 (e1 - Z.shiftl ENGINE_RUNNING_SIZE 4) else e1 in
    let index := Z.shiftr e2 4 in
    let offset := u8 (Z.land e2 15) in
    let engine_sample :=
      if offset <? 16 then AVR_PGM_READ_BYTE ENGINE_RUNNING index
      else if offset <? 48 then
        u8 (Z.shiftr (AVR_PGM_READ_BYTE ENGINE_RUNNING index) 1 +
            Z.shiftr (AVR_PGM_READ_BYTE ENGINE_RUNNING (index + 1)) 1)
      else AVR_PGM_READ_BYTE ENGINE_RUNNING (index + 1) in
    (e2, engine_sample)
  else (0, 128).

(** Second block: the new horn index and the horn sample. *)
Definition horn_track (h : Horn) (si : SampleIndex) : Z * Z :=
  if playing h && negb (index_increment h =? 0) then
    let h1 := u16 (horn si + index_increment h) in
    let h2 := if h1 >=? Z.shiftl TRACTOR_HORN_SIZE 6
              then u16 (h1 - Z.shiftl TRACTOR_HORN_SIZE 6) else h1 in
    let index := Z.shiftr h2 6 in
    let offset := u8 (Z.land h2 63) in
    let horn_sample :=
      if offset <? 16 then AVR_PGM_READ_BYTE TRACTOR_HORN index
      else if offset <? 48 then
        u8 (Z.shiftr (AVR_PGM_READ_BYTE TRACTOR_HORN index) 1 +
            Z.shiftr (AVR_PGM_READ_BYTE TRACTOR_HORN (index + 1)) 1)
      else AVR_PGM_READ_BYTE TRACTOR_HORN (index + 1) in
    (h2, horn_sample)
  else (0, 128).

(** Last block: both tracks mixed with the horn offset removed, saturated
    to [0, UINT8_MAX]. *)
Definition mix (engine_sample horn_sample : Z) : Z :=
  let sample := engine_sample + horn_sample - 128 in
  let sample := if sample >? 255 then 255
                else if sample <? 0 then 0 else sample in
  u8 sample.

(** The new [sample_index] and the returned sample; [horn] is only read. *)
Definition audio_get_next_sample (engine_speed : Z) (h : Horn)
    (si : SampleIndex) : SampleIndex * Z :=
  let '(e, engine_sample) := engine_track engine_speed si in
  let '(hi, horn_sample) := horn_track h si in
  ({| engine := e; horn := hi |}, mix engine_sample horn_sample).

End AudioSample.

Definition audio_play_horn_song (s : Z) (h : Horn) : Horn :=
  if s <? SONG_COUNT then
    let copied := nth (Z.to_nat s) SONG_LIBRARY empty_song in
    {| song := copied;
       current_note := 0;
       note_counter := 0;
       index_increment := note_at copied 0;
       playing := true |}
  else h.

(** [horn.index_increment ? HORN_NOTE_DURATION : HORN_PAUSE_DURATION] *)
Definition note_duration (increment : Z) : Z :=
  if negb (increment =? 0) then HORN_NOTE_DURATION else HORN_PAUSE_DURATION.

Definition audio_horn_manager (h : Horn) : Horn :=
  if playing h then
    let duration := note_duration (index_increment h) in
    let counter := u8 (note_counter h + 1) in
    let h1 :=
      if counter >=? duration then
        let next := u8 (current_note h + 1) in
        {| song := song h;
           current_note := next;
           note_counter := 0;
           index_increment := index_increment h;
           playing := if next >? size (song h) then false else playing h |}
      else
        {| song := song h;
           current_note := current_note h;
           note_counter := counter;
           index_increment := index_increment h;
           playing := playing h |} in
    {| song := song h1;
       current_note := current_note h1;
       note_counter := note_counter h1;
       index_increment := note_at (song h1) (current_note h1);
       playing := playing h1 |}
  else h.

(** ** tractor_model *)

Definition ENGINE_SPEED_IDLE : Z := 64.
Definition ENGINE_SPEED_MIN : Z := 68.
Definition ENGINE_SPEED_MAX : Z := 168.

Definition IGNITION_OFF : Z := 0.
Definition IGNITION_ON : Z := 1.
Definition IGNITION_START : Z := 2.

Definition CRANKING_MINIMUM_TIME : Z := u8 (4000 / TRACTOR_STATUS_UPDATE_CYCLE).
Definition CRANKING_ENGINE_SPEED : Z := u8 (2 * ENGINE_SPEED_IDLE / 5).
Definition HORN_CYCLE : Z := u16 (16000 / TRACTOR_STATUS_UPDATE_CYCLE).
Definition LED_CYCLE : Z := u8 (3000 / TRACTOR_STATUS_UPDATE_CYCLE).

Inductive EngineStatus : Type :=
| ENGINE_OFF
| ENGINE_CRANKING
| ENGINE_RUNNING.

Record Tractor : Type := mkTractor {
  engine_speed : Z;            (* uint16_t, BP14 *)
  horn_counter : Z;            (* uint16_t *)
  status : EngineStatus;
  engine_speed_setpoint : Z;   (* uint8_t, BP6 *)
  ignition_position : Z;       (* uint8_t *)
  cranking_counter : Z;        (* uint8_t *)
  led_counter : Z              (* uint8_t *)
}.

Definition tractor_init : Tractor :=
  {| engine_speed := 0; horn_counter := 0; led_counter := 0;
     status := ENGINE_OFF; engine_speed_setpoint := 0;
     ignition_position := IGNITION_OFF; cranking_counter := 0 |}.

Definition with_engine_speed (v : Z) (t : Tractor) : Tractor :=
  mkTractor v (horn_counter t) (status t) (engine_speed_setpoint t)
            (ignition_position t) (cranking_counter t) (led_counter t).

Definition with_horn_counter (v : Z) (t : Tractor) : Tractor :=
  mkTractor (engine_speed t) v (status t) (engine_speed_setpoint t)
            (ignition_position t) (cranking_counter t) (led_counter t).

Definition with_status (v : EngineStatus) (t : Tractor) : Tractor :=
  mkTractor (engine_speed t) (horn_counter t) v (engine_speed_setpoint t)
            (ignition_position t) (cranking_counter t) (led_counter t).

Definition with_setpoint (v : Z) (t : Tractor) : Tractor :=
  mkTractor (engine_speed t) (horn_counter t) (status t) v
            (ignition_position t) (cranking_counter t) (led_counter t).

Definition with_ignition (v : Z) (t : Tractor) : Tractor :=
  mkTractor (engine_speed t) (horn_counter t) (status t)
            (engine_speed_setpoint t) v (cranking_counter t) (led_counter t).

Definition with_cranking_counter (v : Z) (t : Tractor) : Tractor :=
  mkTractor (engine_speed t) (horn_counter t) (status t)
            (engine_speed_setpoint t) (ignition_position t) v (led_counter t).

Definition with_led_counter (v : Z) (t : Tractor) : Tractor :=
  mkTractor (engine_speed t) (horn_counter t) (status t)
            (engine_speed_setpoint t) (ignition_position t)
            (cranking_counter t) v.

(** [x <- ((x << a) - x + (setpoint << 8)) >> a], computed on 32 bits and
    stored on 16. *)
Definition update_engine_speed (a : Z) (t : Tractor) : Tractor :=
  with_engine_speed
    (u16 (Z.shiftr
            (u32 (u32 (Z.shiftl (engine_speed t) a) - engine_speed t +
                  u16 (Z.shiftl (u16 (engine_speed_setpoint t)) 8)))
            a))
    t.

Definition tractor_get_engine_speed (t : Tractor) : Z :=
  u8 (Z.shiftr (engine_speed t) 8).

Definition is_led_on (t : Tractor) : bool :=
  if tractor_get_engine_speed t >=? ENGINE_SPEED_MIN then
    negb (Z.land (led_counter t) 1 =? 0) && (led_counter t <? 12)
  else false.

(** The [switch] of [tractor_update_model].  Its only effect outside
    [tractor] is the call of [audio_play_horn_song]; the song it asks for is
    returned next to the new tractor state.  (The call touches [horn] alone,
    [update_engine_speed] touches [tractor] alone, so their order is
    immaterial.) *)
Definition tractor_update_status (t : Tractor) : Tractor * option Z :=
  match status t with
  | ENGINE_CRANKING =>
      let t1 := with_cranking_counter (u8 (cranking_counter t + 1)) t in
      let t2 :=
        if cranking_counter t1 >? CRANKING_MINIMUM_TIME then
          with_led_counter LED_CYCLE
            (with_horn_counter 0
               (with_setpoint ENGINE_SPEED_IDLE
                  (with_status ENGINE_RUNNING t1)))
        else if negb (ignition_position t1 =? IGNITION_START) then
          with_setpoint 0 (with_status ENGINE_OFF t1)
        else t1 in
      (update_engine_speed 4 t2, None)
  | ENGINE_RUNNING =>
      if ignition_position t =? IGNITION_OFF then
        (with_setpoint 0 (with_status ENGINE_OFF t), None)
      else
        let '(t1, request) :=
          if tractor_get_engine_speed t >=? ENGINE_SPEED_MIN then
            let t1 := with_horn_counter (u16 (horn_counter t + 1)) t in
            let '(t2, request) :=
              if horn_counter t1 =? HORN_CYCLE / 2 then
                (t1, Some SONG_DOUBLE_HONK)
              else if horn_counter t1 >=? HORN_CYCLE then
                (with_horn_counter 0 t1, Some SONG_SINGLE_HONK)
              else (t1, None) in
            (update_engine_speed 6 t2, request)
          else (update_engine_speed 4 t, None) in
        let t2 := with_led_counter (u8 (led_counter t1 + 1)) t1 in
        (if led_counter t2 >? LED_CYCLE then with_led_counter 0 t2 else t2,
         request)
  | ENGINE_OFF =>
      let t1 :=
        if ignition_position t =? IGNITION_START then
          with_cranking_counter 0
            (with_setpoint CRANKING_ENGINE_SPEED
               (with_status ENGINE_CRANKING t))
        else t in
      (update_engine_speed 2 t1, None)
  end.

(** The tractor model together with the horn player it drives. *)
Record Model : Type := mkModel {
  tractor : Tractor;
  horn_player : Horn
}.

Definition model_init : Model :=
  {| tractor := tractor_init; horn_player := horn_init |}.

Definition tractor_update_model (m : Model) : bool * Model :=
  let '(t, request) := tractor_update_status (tractor m) in
  let h := match request with
           | Some s => audio_play_horn_song s (horn_player m)
           | None => horn_player m
           end in
  (is_led_on t, {| tractor := t; horn_player := audio_horn_manager h |}).

Definition tractor_set_ignition_position (position : Z) (t : Tractor)
    : Tractor :=
  with_ignition position t.

Definition tractor_set_engine_speed_setpoint (setpoint : Z) (t : Tractor)
    : Tractor :=
  match status t with
  | ENGINE_RUNNING =>
      let setpoint :=
        if setpoint >? ENGINE_SPEED_MAX then ENGINE_SPEED_MAX
        else if setpoint <? ENGINE_SPEED_IDLE then ENGINE_SPEED_IDLE
        else setpoint in
      with_setpoint setpoint t
  | _ => t
  end.

Definition tractor_play_dixie_song (m : Model) : Model :=
  if ignition_position (tractor m) =? IGNITION_OFF then m
  else {| tractor := with_horn_counter 0 (tractor m);
          horn_player := audio_play_horn_song SONG_DIXIE (horn_player m) |}.

(** ** Runs *)

(** [n] successive calls of [tractor_update_model]. *)
Fixpoint updates (n : nat) (m : Model) : Model :=
  match n with
  | O => m
  | S k => updates k (snd (tractor_update_model m))
  end.

(** The songs asked for by [n] successive calls of [tractor_update_model],
    one entry per call. *)
Fixpoint honks (n : nat) (m : Model) : list (option Z) :=
  match n with
  | O => []
  | S k => snd (tractor_update_status (tractor m))
           :: honks k (snd (tractor_update_model m))
  end.

(** A call into the horn player. *)
Inductive HornCall : Type :=
| PlayHornSong (s : Z)
| HornManager.

Definition horn_call (h : Horn) (c : HornCall) : Horn :=
  match c with
  | PlayHornSong s => audio_play_horn_song s h
  | HornManager => audio_horn_manager h
  end.

Definition horn_calls (cs : list HornCall) (h : Horn) : Horn :=
  fold_left horn_call cs h.


(** The state of the horn player between calls. *)
Definition horn_inv (h : Horn) : Prop :=
  (song h = empty_song \/ In (song h) SONG_LIBRARY) /\
  0 <= current_note h <= size (song h) + 1 /\
  (playing h = true -> current_note h <= size (song h)).

(** The values [led_counter] takes in one blink cycle: 0 .. [LED_CYCLE]. *)
Definition led_cycle_values : list Z :=
  map Z.of_nat (seq 0 (S (Z.to_nat LED_CYCLE))).

(** The songs of one full horn cycle, call by call. *)
Definition horn_cycle_honks : list (option Z) :=
  repeat None 199 ++ Some SONG_DOUBLE_HONK
    :: repeat None 199 ++ [Some SONG_SINGLE_HONK].

(** Cranking with the ignition held at START and the counter at [c]. *)
Definition cranking_at (c : Z) (t : Tractor) : Prop :=
  status t = ENGINE_CRANKING /\
  ignition_position t = IGNITION_START /\
  cranking_counter t = c /\
  engine_speed_setpoint t = CRANKING_ENGINE_SPEED.

(** With a setpoint of 68 or more, a RUNNING engine at a speed of 68 or more
    stays there. *)
Definition cruising (t : Tractor) : Prop :=
  status t = ENGINE_RUNNING /\
  ignition_position t <> IGNITION_OFF /\
  ENGINE_SPEED_MIN <= engine_speed_setpoint t < 256 /\
  ENGINE_SPEED_MIN * 256 <= engine_speed t < 65536.

(** ** Sample inputs *)

(** The initial state with the ignition key turned to START. *)
Definition model_start : Model :=
  {| tractor := tractor_set_ignition_position IGNITION_START tractor_init;
     horn_player := horn_init |}.

(** Running at speed 100 (BP6), setpoint 100, at the start of a horn cycle
    and twelve ticks into a blink cycle. *)
Definition model_cruising : Model :=
  {| tractor :=
       {| engine_speed := 100 * 256; horn_counter := 0;
          status := ENGINE_RUNNING; engine_speed_setpoint := 100;
          ignition_position := IGNITION_ON; cranking_counter := 0;
          led_counter := 12 |};
     horn_player := horn_init |}.

(** Cranking for [CRANKING_MINIMUM_TIME] ticks, the key just released to a
    position that is neither OFF nor START. *)
Definition model_cranked : Model :=
  {| tractor :=
       tractor_set_ignition_position 7
         {| engine_speed := 6000; horn_counter := 0;
            status := ENGINE_CRANKING;
            engine_speed_setpoint := CRANKING_ENGINE_SPEED;
            ignition_position := IGNITION_START;
            cranking_counter := CRANKING_MINIMUM_TIME;
            led_counter := 0 |};
     horn_player := horn_init |}.

(** Small wavetables for the evaluation of the audio functions. *)
Definition engine_table_sample : list Z := [10; 200; 30; 40].
Definition horn_table_sample : list Z := [128; 200; 128; 60].

(** The single honk just requested. *)
Definition honk_requested : Horn :=
  audio_play_horn_song SONG_SINGLE_HONK horn_init.

(** The engine index one step before the end of the first table entry. *)
Definition index_at_14 : SampleIndex := {| engine := 14; horn := 0 |}.

(** The single honk requested, then thirteen ticks of the horn manager. *)
Definition single_honk_played : Horn :=
  horn_calls (PlayHornSong SONG_SINGLE_HONK :: repeat HornManager 13)
             horn_init.

(** ** main *)

Definition TRACTOR_MODEL_CYCLE : Z := u16 (8000 / 25).
Definition PWM_DC_MOTOR_MIN : Z := 6.
Definition PWM_DC_MOTOR_MAX : Z := 58.
Definition ADC_THROTTLE_IDLE : Z := 38.

(** The new value of [output_pwm_duty_cycle]. *)
Definition output_set_dc_motor_pwm (engine_speed : Z) : Z :=
  if engine_speed <? ENGINE_SPEED_MIN then 0
  else
    let duty_cycle :=
      u8 (PWM_DC_MOTOR_MIN + Z.shiftr (engine_speed - ENGINE_SPEED_IDLE) 1) in
    if duty_cycle >? PWM_DC_MOTOR_MAX then PWM_DC_MOTOR_MAX else duty_cycle.

(** What the TIMER0 interrupt writes: the flag that asks for an audio sample,
    its static counter, and the DC MOTOR bit of PORTB. *)
Record Timer0 : Type := mkTimer0 {
  update_audio_sample : bool;
  pwm_timer : Z;
  dc_motor_pin : bool
}.

(** [ISR (TIMER0_COMPA_vect)], reading [output_pwm_duty_cycle]. *)
Definition timer0_compa_isr (output_pwm_duty_cycle : Z) (s : Timer0)
    : Timer0 :=
  let timer := u8 (pwm_timer s + 1) in
  let '(timer, pin) :=
    if timer >=? 64 then
      (0, if output_pwm_duty_cycle >? 0 then true else dc_motor_pin s)
    else (timer, dc_motor_pin s) in
  {| update_audio_sample := true;
     pwm_timer := timer;
     dc_motor_pin := if timer >=? output_pwm_duty_cycle then false else pin |}.

(** The level of the DC MOTOR pin after each of [n] interrupts. *)
Fixpoint motor_pin_trace (output_pwm_duty_cycle : Z) (n : nat) (s : Timer0)
    : list bool :=
  match n with
  | O => []
  | S k =>
      let s' := timer0_compa_isr output_pwm_duty_cycle s in
      dc_motor_pin s' :: motor_pin_trace output_pwm_duty_cycle k s'
  end.

(** The state after [n] interrupts. *)
Fixpoint timer0_interrupts (output_pwm_duty_cycle : Z) (n : nat) (s : Timer0)
    : Timer0 :=
  match n with
  | O => s
  | S k =>
      timer0_interrupts output_pwm_duty_cycle k
        (timer0_compa_isr output_pwm_duty_cycle s)
  end.

(** The setpoint [main] passes to [tractor_set_engine_speed_setpoint]:
    [ENGINE_SPEED_IDLE + ((adc_value_throttle - ADC_THROTTLE_IDLE) >> 1)],
    computed on [int] (the shift of a negative value is arithmetic, as
    avr-gcc has it) and converted to the [uint8_t] parameter. *)
Definition throttle_setpoint (adc_value_throttle : Z) : Z :=
  u8 (ENGINE_SPEED_IDLE + Z.shiftr (adc_value_throttle - ADC_THROTTLE_IDLE) 1).

(** The state [main] works on: the three modules, its own counter and the
    outputs it drives (the audio PWM register, the LED bit of PORTB and the
    duty cycle handed to the TIMER0 interrupt). *)
Record Firmware : Type := mkFirmware {
  buttons : Buttons;
  model : Model;
  sample_index : SampleIndex;
  update_status_timer : Z;
  OCR1B : Z;
  led_pin : bool;
  output_pwm_duty_cycle : Z
}.

Definition firmware_init : Firmware :=
  {| buttons := buttons_init; model := model_init;
     sample_index := sample_index_init; update_status_timer := 0;
     OCR1B := 0; led_pin := false; output_pwm_duty_cycle := 0 |}.

(** The block of [main] run at 25 Hz.  The two ADC readings it uses
    ([adc_value_buttons], [adc_value_throttle], written by the ADC
    interrupt) are arguments; the closing [adc_start_conversion], which only
    asks the hardware for the next readings, has no counterpart here. *)
Definition main_model_update (adc_value_buttons adc_value_throttle : Z)
    (f : Firmware) : Firmware :=
  let b := button_set_adc_value adc_value_buttons (buttons f) in
  let '(clicked, b) := button_is_clicked BUTTON_HORN b in
  let m := if clicked then tractor_play_dixie_song (model f) else model f in
  let position :=
    if button_is_pressed BUTTON_START b then IGNITION_START
    else if button_is_pressed BUTTON_ON b then IGNITION_ON
    else IGNITION_OFF in
  let t := tractor_set_ignition_position position (tractor m) in
  let t := tractor_set_engine_speed_setpoint
             (throttle_setpoint adc_value_throttle) t in
  let '(led_status, m) :=
    tractor_update_model {| tractor := t; horn_player := horn_player m |} in
  {| buttons := b;
     model := m;
     sample_index := sample_index f;
     update_status_timer := update_status_timer f;
     OCR1B := OCR1B f;
     led_pin := led_status;
     output_pwm_duty_cycle :=
       output_set_dc_motor_pwm (tractor_get_engine_speed (tractor m)) |}.

Section MainLoop.

Variable ENGINE_RUNNING : list Z.
Variable ENGINE_RUNNING_SIZE : Z.
Variable TRACTOR_HORN : list Z.
Variable TRACTOR_HORN_SIZE : Z.

(** One pass of the loop of [main]: the audio sample at 8 kHz, and every
    [TRACTOR_MODEL_CYCLE] passes the model update.  A pass starts when the
    TIMER0 interrupt has set [update_audio_sample] and ends by clearing it;
    this hand-over is not part of the pass. *)
Definition main_pass (adc_value_buttons adc_value_throttle : Z)
    (f : Firmware) : Firmware :=
  let engine_speed := tractor_get_engine_speed (tractor (model f)) in
  let '(si, sample) :=
    audio_get_next_sample ENGINE_RUNNING ENGINE_RUNNING_SIZE
      TRACTOR_HORN TRACTOR_HORN_SIZE engine_speed
      (horn_player (model f)) (sample_index f) in
  let f1 :=
    {| buttons := buttons f; model := model f; sample_index := si;
       update_status_timer := u16 (update_status_timer f + 1);
       OCR1B := sample; led_pin := led_pin f;
       output_pwm_duty_cycle := output_pwm_duty_cycle f |} in
  if update_status_timer f1 >=? TRACTOR_MODEL_CYCLE then
    main_model_update adc_value_buttons adc_value_throttle
      {| buttons := buttons f1; model := model f1;
         sample_index := sample_index f1; update_status_timer := 0;
         OCR1B := OCR1B f1; led_pin := led_pin f1;
         output_pwm_duty_cycle := output_pwm_duty_cycle f1 |}
  else f1.

(** The passes of [main] over a list of ADC readings (buttons, throttle). *)
Definition main_passes (adc : list (Z * Z)) (f : Firmware) : Firmware :=
  fold_left (fun s r => main_pass (fst r) (snd r) s) adc f.

(** Successive samples with the horn player and the engine speed chosen
    anew for each call. *)
Definition audio_samples (calls : list (Z * Horn)) (si : SampleIndex)
    : SampleIndex :=
  fold_left
    (fun s c =>
       fst (audio_get_next_sample ENGINE_RUNNING ENGINE_RUNNING_SIZE
              TRACTOR_HORN TRACTOR_HORN_SIZE (fst c) (snd c) s))
    calls si.

End MainLoop.

(** The model updates of [main] over a list of ADC readings. *)
Definition main_model_updates (adc : list (Z * Z)) (f : Firmware)
    : Firmware :=
  fold_left (fun s r => main_model_update (fst r) (snd r) s) adc f.

(** ** Runs of the modules *)

(** A call into the button manager. *)
Inductive ButtonCall : Type :=
| SetAdcValue (adc_value : Z)
| IsClicked (button : Z).

Definition button_call (b : Buttons) (c : ButtonCall) : Buttons :=
  match c with
  | SetAdcValue adc_value => button_set_adc_value adc_value b
  | IsClicked button => snd (button_is_clicked button b)
  end.

Definition button_calls (cs : list ButtonCall) (b : Buttons) : Buttons :=
  fold_left button_call cs b.

(** A call into the tractor model. *)
Inductive TractorCall : Type :=
| UpdateModel
| SetIgnitionPosition (position : Z)
| SetEngineSpeedSetpoint (setpoint : Z)
| PlayDixieSong.

Definition tractor_call (m : Model) (c : TractorCall) : Model :=
  match c with
  | UpdateModel => snd (tractor_update_model m)
  | SetIgnitionPosition position =>
      {| tractor := tractor_set_ignition_position position (tractor m);
         horn_player := horn_player m |}
  | SetEngineSpeedSetpoint setpoint =>
      {| tractor := tractor_set_engine_speed_setpoint setpoint (tractor m);
         horn_player := horn_player m |}
  | PlayDixieSong => tractor_play_dixie_song m
  end.

Definition tractor_calls (cs : list TractorCall) (m : Model) : Model :=
  fold_left tractor_call cs m.

(** [n] successive calls of [audio_horn_manager]. *)
Fixpoint horn_ticks (n : nat) (h : Horn) : Horn :=
  match n with
  | O => h
  | S k => horn_ticks k (audio_horn_manager h)
  end.

(** Ticks that a playing song can still last at most. *)
Definition horn_ticks_left (h : Horn) : Z :=
  HORN_NOTE_DURATION * (size (song h) + 1 - current_note h) - note_counter h.

(** The horn player between calls, cached increment and note counter
    included. *)
Definition horn_coherent (h : Horn) : Prop :=
  horn_inv h /\
  0 <= note_counter h < HORN_NOTE_DURATION /\
  index_increment h = note_at (song h) (current_note h).

(** The tractor between calls. *)
Definition tractor_inv (t : Tractor) : Prop :=
  0 <= engine_speed t <= ENGINE_SPEED_MAX * 256 /\
  0 <= horn_counter t < HORN_CYCLE /\
  0 <= led_counter t <= LED_CYCLE /\
  0 <= cranking_counter t <= CRANKING_MINIMUM_TIME + 1 /\
  match status t with
  | ENGINE_OFF => engine_speed_setpoint t = 0
  | ENGINE_CRANKING =>
      engine_speed_setpoint t = CRANKING_ENGINE_SPEED /\
      cranking_counter t <= CRANKING_MINIMUM_TIME
  | ENGINE_RUNNING =>
      ENGINE_SPEED_IDLE <= engine_speed_setpoint t <= ENGINE_SPEED_MAX
  end.

(** The engine [n] model updates after the key went to START from OFF. *)
Definition start_progress (n : Z) (t : Tractor) : Prop :=
  (n = 0 /\ status t = ENGINE_OFF) \/
  (1 <= n <= CRANKING_MINIMUM_TIME + 1 /\
   status t = ENGINE_CRANKING /\ cranking_counter t = n - 1) \/
  (n = CRANKING_MINIMUM_TIME + 2 /\
   status t = ENGINE_RUNNING /\
   engine_speed_setpoint t = ENGINE_SPEED_IDLE).

(** An engine that was OFF fewer than [n] model updates ago cannot be
    RUNNING yet. *)
Definition not_started (n : Z) (t : Tractor) : Prop :=
  match status t with
  | ENGINE_OFF => True
  | ENGINE_CRANKING => 0 <= cranking_counter t < n
  | ENGINE_RUNNING => False
  end.

(** Key off, engine stopped, nothing playing: the firmware at rest. *)
Definition at_rest (f : Firmware) : Prop :=
  buttons f = buttons_init /\
  model f = model_init /\
  sample_index f = sample_index_init /\
  0 <= update_status_timer f < TRACTOR_MODEL_CYCLE /\
  led_pin f = false /\
  output_pwm_duty_cycle f = 0.

(** The engine just switched off at full speed. *)
Definition model_switched_off : Model :=
  {| tractor :=
       {| engine_speed := ENGINE_SPEED_MAX * 256; horn_counter := 0;
          status := ENGINE_OFF; engine_speed_setpoint := 0;
          ignition_position := IGNITION_OFF; cranking_counter := 0;
          led_counter := 0 |};
     horn_player := horn_init |}.

(** * Properties *)

(** ** Bits of fixed-width values *)

Lemma u8_range : forall x, 0 <= u8 x < 256.
Proof. intro x. unfold u8. apply Z.mod_pos_bound. lia. Qed.

Lemma u16_range : forall x, 0 <= u16 x < 65536.
Proof. intro x. unfold u16. apply Z.mod_pos_bound. lia. Qed.

Lemma u8_small : forall x, 0 <= x < 256 -> u8 x = x.
Proof. intros x H. unfold u8. apply Z.mod_small. exact H. Qed.

Lemma u16_small : forall x, 0 <= x < 65536 -> u16 x = x.
Proof. intros x H. unfold u16. apply Z.mod_small. exact H. Qed.

Lemma u32_small : forall x, 0 <= x < 4294967296 -> u32 x = x.
Proof. intros x H. unfold u32. apply Z.mod_small. exact H. Qed.

Lemma u8_testbit : forall x i,
  Z.testbit (u8 x) i = (i <? 8) && Z.testbit x i.
Proof.
  intros x i. unfold u8. change 256 with (2 ^ 8).
  apply Z.testbit_mod_pow2. lia.
Qed.

Lemma byte_high_bits : forall x i, 0 <= x < 256 -> 8 <= i -> Z.testbit x i = false.
Proof.
  intros x i Hx Hi. rewrite <- (u8_small x Hx), u8_testbit.
  replace (i <? 8) with false by (symmetry; apply Z.ltb_ge; lia).
  reflexivity.
Qed.

Lemma BM_pow2 : forall button, 0 <= button -> BM button = 2 ^ button.
Proof.
  intros button H. unfold BM. rewrite Z.shiftl_mul_pow2 by lia. lia.
Qed.

Lemma mask_pow2 : forall button, 0 <= button < 8 -> u8 (BM button) = 2 ^ button.
Proof.
  intros button H. rewrite BM_pow2 by lia. apply u8_small.
  split; [apply Z.pow_nonneg; lia|].
  change 256 with (2 ^ 8). apply Z.pow_lt_mono_r; lia.
Qed.

Lemma land_pow2_eqb : forall a n,
  0 <= n -> (Z.land a (2 ^ n) =? 0) = negb (Z.testbit a n).
Proof.
  intros a n Hn. destruct (Z.testbit a n) eqn:E; simpl.
  - apply Z.eqb_neq. intro H.
    assert (Z.testbit (Z.land a (2 ^ n)) n = true) as T
      by (rewrite Z.land_spec, E, Z.pow2_bits_true by lia; reflexivity).
    rewrite H, Z.bits_0 in T. discriminate.
  - apply Z.eqb_eq. apply Z.bits_inj'. intros i Hi.
    rewrite Z.land_spec, Z.bits_0, Z.pow2_bits_eqb by lia.
    destruct (Z.eqb_spec n i) as [-> | ]; [rewrite E | ]; 
      auto using andb_false_r.
Qed.

Lemma cleared_bits : forall c n i,
  0 <= c < 256 -> 0 <= n ->
  Z.testbit (u8 (Z.land c (Z.lnot (2 ^ n)))) i =
  Z.testbit c i && negb (n =? i).
Proof.
  intros c n i Hc Hn. rewrite u8_testbit.
  destruct (Z.ltb_spec i 0) as [Hneg|Hpos].
  - rewrite !Z.testbit_neg_r by lia. destruct (i <? 8); reflexivity.
  - rewrite Z.land_spec, Z.lnot_spec, Z.pow2_bits_eqb by lia.
    destruct (Z.ltb_spec i 8); simpl; [reflexivity|].
    rewrite byte_high_bits by lia. reflexivity.
Qed.

(** ** button_manager *)

Section ButtonClicks.

Variable button : Z.
Hypothesis button_defined : 0 <= button < BUTTON_COUNT.

Lemma click_read_bits : forall x b i,
  0 <= button_clicked b < 256 ->
  Z.testbit (button_clicked (snd (button_is_clicked x b))) i =
  Z.testbit (button_clicked b) i && negb (Z.testbit (u8 (BM x)) i).
Proof.
  intros x b i Hc. simpl. rewrite u8_testbit.
  destruct (Z.ltb_spec i 0) as [Hneg|Hpos].
  - rewrite !Z.testbit_neg_r by lia. destruct (i <? 8); reflexivity.
  - rewrite Z.land_spec, Z.lnot_spec by lia.
    destruct (Z.ltb_spec i 8); simpl; [reflexivity|].
    rewrite byte_high_bits by lia. reflexivity.
Qed.





Lemma click_read_result : forall b,
  fst (button_is_clicked button b) = Z.testbit (button_clicked b) button.
Proof.
  intro b. unfold BUTTON_COUNT in *. simpl.
  rewrite mask_pow2, land_pow2_eqb by lia. apply negb_involutive.
Qed.

Lemma rising_edge_sets_click : forall adc_value b,
  Z.testbit (button_level b) button = false ->
  Z.testbit (button_new_level adc_value) button = true ->
  Z.testbit (button_clicked (button_set_adc_value adc_value b)) button = true.
Proof.
  intros adc b Hold Hnew. unfold BUTTON_COUNT in *. simpl.
  rewrite u8_testbit, Z.lor_spec, !Z.land_spec, Z.lnot_spec, Hold, Hnew
    by lia.
  assert (button = 0 \/ button = 1 \/ button = 2) as [-> | [-> | ->]] by lia;
    simpl; apply orb_true_r.
Qed.


End ButtonClicks.

(** ** sound_manager: samples *)

Lemma read_byte_range : forall table i, 0 <= AVR_PGM_READ_BYTE table i < 256.
Proof. intros table i. unfold AVR_PGM_READ_BYTE. apply u8_range. Qed.

Section Samples.

Variable ENGINE_RUNNING : list Z.
Variable ENGINE_RUNNING_SIZE : Z.
Variable TRACTOR_HORN : list Z.
Variable TRACTOR_HORN_SIZE : Z.

Lemma horn_sample_range : forall h si,
  0 <= snd (horn_track TRACTOR_HORN TRACTOR_HORN_SIZE h si) < 256.
Proof.
  intros h si. unfold horn_track.
  destruct (playing h && negb (index_increment h =? 0)); [|simpl; lia].
  cbv zeta.
  repeat match goal with
         | |- context [if ?c then _ else _] => destruct c
         end; simpl; apply u8_range || apply read_byte_range.
Qed.

Lemma mix_silent_engine : forall s, 0 <= s < 256 -> mix 128 s = s.
Proof.
  intros s Hs. unfold mix. replace (128 + s - 128) with s by lia.
  destruct (Z.gtb_spec s 255); [lia|].
  destruct (Z.ltb_spec s 0); [lia|].
  apply u8_small. exact Hs.
Qed.

Lemma engine_offset_small : forall e, (u8 (Z.land e 15) <? 16) = true.
Proof.
  intro e. apply Z.ltb_lt.
  change 15 with (Z.ones 4). rewrite Z.land_ones by lia.
  pose proof (Z.mod_pos_bound e (2 ^ 4)) as H.
  rewrite u8_small; lia.
Qed.

(** C2, as the code has it: with [engine_speed = 0] the engine index is
    reset to zero and the engine contributes the silence level 128, so the
    value returned is the horn sample: 128 when no song is playing or the
    current note is a rest, and the sample read from the horn table while a
    note sounds. *)
Theorem silent_engine_returns_horn_sample : forall h si,
  let r := audio_get_next_sample ENGINE_RUNNING ENGINE_RUNNING_SIZE
             TRACTOR_HORN TRACTOR_HORN_SIZE 0 h si in
  engine (fst r) = 0 /\
  engine_track ENGINE_RUNNING ENGINE_RUNNING_SIZE 0 si = (0, 128) /\
  snd r = snd (horn_track TRACTOR_HORN TRACTOR_HORN_SIZE h si) /\
  (playing h && negb (index_increment h =? 0) = false ->
   snd r = 128 /\ horn (fst r) = 0).
Proof.
  intros h si r. unfold r, audio_get_next_sample.
  change (engine_track ENGINE_RUNNING ENGINE_RUNNING_SIZE 0 si)
    with (0, 128).
  pose proof (horn_sample_range h si) as Hr.
  destruct (horn_track TRACTOR_HORN TRACTOR_HORN_SIZE h si) as [hi hs] eqn:E.
  cbn [fst snd engine horn] in *.
  split; [reflexivity|]. split; [reflexivity|].
  split; [apply mix_silent_engine; exact Hr|].
  intro Hsilent. unfold horn_track in E. rewrite Hsilent in E.
  inversion E; subst. split; reflexivity.
Qed.

(** C5: the index of the engine track advances by [engine_speed >> 2] and
    wraps modulo [ENGINE_RUNNING_SIZE << 4]; the offset is the low four bits
    of the index, always below 16, so the sample is the table entry at
    [index >> 4] for every offset: the averaged and the next entry are
    never selected. *)
Theorem engine_sample_is_entry_below : forall engine_speed si,
  0 < engine_speed < 256 ->
  64 <= Z.shiftl ENGINE_RUNNING_SIZE 4 < 65536 - 64 ->
  0 <= engine si < Z.shiftl ENGINE_RUNNING_SIZE 4 ->
  let r := engine_track ENGINE_RUNNING ENGINE_RUNNING_SIZE engine_speed si in
  fst r = (engine si + Z.shiftr engine_speed 2)
            mod Z.shiftl ENGINE_RUNNING_SIZE 4 /\
  snd r = AVR_PGM_READ_BYTE ENGINE_RUNNING (Z.shiftr (fst r) 4).
Proof.
  intros engine_speed si Hs Hsize He r. unfold r, engine_track.
  destruct (Z.eqb_spec engine_speed 0) as [|_]; [lia|]. cbn [negb].
  cbv zeta. rewrite engine_offset_small. cbn [fst snd].
  split; [|reflexivity].
  set (mx := Z.shiftl ENGINE_RUNNING_SIZE 4) in *.
  assert (0 <= Z.shiftr engine_speed 2 < 64) as Hinc.
  { rewrite Z.shiftr_div_pow2 by lia. change (2 ^ 2) with 4.
    split; [apply Z.div_pos; lia | apply Z.div_lt_upper_bound; lia]. }
  rewrite (u16_small (engine si + Z.shiftr engine_speed 2)) by lia.
  destruct (Z.geb_spec (engine si + Z.shiftr engine_speed 2) mx) as [Hge|Hlt].
  - rewrite u16_small by lia.
    apply Z.mod_unique with (q := 1); lia.
  - symmetry. apply Z.mod_small. lia.
Qed.

End Samples.

(** ** sound_manager: horn player *)

(** C6, as the code has it: while a song is playing the duration of a rest
    (one tick) is shorter than the duration of a sounding note (four ticks);
    every call increments the note counter, and when the counter reaches the
    duration it is reset and the note index moves to the next note.  The
    increment is then reloaded from the current note. *)
Theorem horn_manager_note_timing : forall h,
  playing h = true ->
  let h' := audio_horn_manager h in
  let counter := u8 (note_counter h + 1) in
  note_duration 0 = 1 /\
  (forall increment, increment <> 0 -> note_duration increment = 4) /\
  (counter < note_duration (index_increment h) ->
   note_counter h' = counter /\ current_note h' = current_note h /\
   playing h' = true) /\
  (counter >= note_duration (index_increment h) ->
   note_counter h' = 0 /\ current_note h' = u8 (current_note h + 1)) /\
  song h' = song h /\
  index_increment h' = note_at (song h) (current_note h').
Proof.
  intros h Hp h' counter.
  split; [reflexivity|].
  split.
  { intros increment Hne. unfold note_duration.
    destruct (Z.eqb_spec increment 0); [contradiction | reflexivity]. }
  unfold h', audio_horn_manager. rewrite Hp. fold counter.
  destruct (Z.geb_spec counter (note_duration (index_increment h)))
    as [Hge|Hlt]; cbn [song current_note note_counter playing index_increment].
  - split; [lia|]. split; [auto|]. split; reflexivity.
  - split; [auto|]. split; [lia|]. split; reflexivity.
Qed.

Lemma library_song_size : forall s,
  s = empty_song \/ In s SONG_LIBRARY -> 0 <= size s <= 23.
Proof.
  intros s [->|Hin]; [simpl; lia|].
  simpl in Hin.
  destruct Hin as [<-|[<-|[<-|[]]]]; simpl; lia.
Qed.

Lemma horn_inv_init : horn_inv horn_init.
Proof.
  unfold horn_inv; simpl. split; [left; reflexivity|].
  split; [lia | discriminate].
Qed.

Lemma horn_inv_play : forall s h,
  horn_inv h -> horn_inv (audio_play_horn_song s h).
Proof.
  intros s h Hinv. unfold audio_play_horn_song.
  destruct (s <? SONG_COUNT); [|exact Hinv].
  assert (nth (Z.to_nat s) SONG_LIBRARY empty_song = empty_song \/
          In (nth (Z.to_nat s) SONG_LIBRARY empty_song) SONG_LIBRARY) as Hsong
    by (destruct (nth_in_or_default (Z.to_nat s) SONG_LIBRARY empty_song);
        auto).
  pose proof (library_song_size _ Hsong).
  unfold horn_inv; cbn [song current_note playing].
  split; [exact Hsong|]. split; lia.
Qed.

Lemma horn_inv_manager : forall h,
  horn_inv h -> horn_inv (audio_horn_manager h).
Proof.
  intros h (Hsong & Hcur & Hplay). unfold audio_horn_manager.
  destruct (playing h) eqn:Hp;
    [|unfold horn_inv; rewrite Hp; exact (conj Hsong (conj Hcur Hplay))].
  pose proof (library_song_size _ Hsong). specialize (Hplay eq_refl).
  destruct (u8 (note_counter h + 1) >=? note_duration (index_increment h));
    unfold horn_inv; cbn [song current_note playing];
    [|split; [exact Hsong|]; split; [lia | auto]].
  rewrite (u8_small (current_note h + 1)) by lia.
  split; [exact Hsong|]. split; [lia|].
  destruct (Z.gtb_spec (current_note h + 1) (size (song h)));
    [discriminate | lia].
Qed.

Lemma horn_inv_calls : forall cs h, horn_inv h -> horn_inv (horn_calls cs h).
Proof.
  induction cs as [|c cs IH]; intros h Hinv; [exact Hinv|].
  unfold horn_calls in *. cbn [fold_left]. apply IH.
  destruct c; [apply horn_inv_play | apply horn_inv_manager]; exact Hinv.
Qed.

(** C8, as the code has it: after any sequence of [audio_play_horn_song] and
    [audio_horn_manager] calls the note index is at most the size of the
    copied song plus one and stays inside the note array; while a song is
    playing it is at most the size; the manager clears [playing] exactly
    when the index moves past the size. *)
Theorem horn_note_index_bound : forall cs,
  let h := horn_calls cs horn_init in
  0 <= current_note h <= size (song h) + 1 /\
  current_note h < Z.of_nat MAX_SONG_SIZE /\
  (playing h = true -> current_note h <= size (song h)) /\
  (playing (audio_horn_manager h) = true <->
   playing h = true /\
   current_note (audio_horn_manager h) <= size (song h)).
Proof.
  intros cs h.
  destruct (horn_inv_calls cs horn_init horn_inv_init)
    as (Hsong & Hcur & Hplay). fold h in Hsong, Hcur, Hplay.
  pose proof (library_song_size _ Hsong) as Hsize.
  split; [exact Hcur|]. split; [simpl; lia|]. split; [exact Hplay|].
  unfold audio_horn_manager.
  destruct (playing h) eqn:Hp.
  - specialize (Hplay eq_refl).
    destruct (u8 (note_counter h + 1) >=? note_duration (index_increment h));
      cbn [song current_note playing].
    + rewrite (u8_small (current_note h + 1)) by lia.
      destruct (Z.gtb_spec (current_note h + 1) (size (song h)))
        as [Hgt|Hle].
      * split; [intro Hf; discriminate Hf | intros [_ Hc]; lia].
      * split; [intros _; split; [reflexivity | exact Hle] | reflexivity].
    + split; [intros _; split; [reflexivity | exact Hplay] | reflexivity].
  - split; [intro Hf; congruence | intros [Hf _]; discriminate Hf].
Qed.

(** ** tractor_model: one update *)

(** Unfolds the update of the tractor record down to its fields. *)
Ltac tractor_unfold :=
  cbv beta iota zeta delta
    [tractor_update_status update_engine_speed tractor_get_engine_speed
     is_led_on with_engine_speed with_horn_counter with_status with_setpoint
     with_ignition with_cranking_counter with_led_counter
     engine_speed horn_counter status engine_speed_setpoint
     ignition_position cranking_counter led_counter
     tractor horn_player fst snd negb
     IGNITION_OFF IGNITION_ON IGNITION_START].

Lemma update_model_tractor : forall m,
  tractor (snd (tractor_update_model m)) =
  fst (tractor_update_status (tractor m)).
Proof.
  intro m. unfold tractor_update_model.
  destruct (tractor_update_status (tractor m)); reflexivity.
Qed.

Lemma update_model_led : forall m,
  fst (tractor_update_model m) =
  is_led_on (tractor (snd (tractor_update_model m))).
Proof.
  intro m. unfold tractor_update_model.
  destruct (tractor_update_status (tractor m)); reflexivity.
Qed.

Lemma updates_add : forall a b m, updates (a + b) m = updates b (updates a m).
Proof.
  induction a as [|a IH]; intros b m; [reflexivity|].
  cbn [Nat.add updates]. apply IH.
Qed.

Lemma updates_succ : forall n m,
  updates (S n) m = snd (tractor_update_model (updates n m)).
Proof.
  intros n m. replace (S n) with (n + 1)%nat by lia.
  rewrite updates_add. reflexivity.
Qed.

Lemma honks_add : forall a b m,
  honks (a + b) m = honks a m ++ honks b (updates a m).
Proof.
  induction a as [|a IH]; intros b m; [reflexivity|].
  cbn [Nat.add honks updates app]. rewrite IH. reflexivity.
Qed.

Lemma land_1_odd : forall x, (Z.land x 1 =? 0) = negb (Z.odd x).
Proof.
  intro x. change 1 with (2 ^ 0) at 1.
  rewrite land_pow2_eqb, Z.bit0_odd by lia. reflexivity.
Qed.

Lemma is_led_on_spec : forall t,
  is_led_on t = true <->
  tractor_get_engine_speed t >= ENGINE_SPEED_MIN /\
  Z.odd (led_counter t) = true /\ led_counter t < 12.
Proof.
  intro t. unfold is_led_on. rewrite land_1_odd, negb_involutive.
  destruct (Z.geb_spec (tractor_get_engine_speed t) ENGINE_SPEED_MIN).
  - rewrite andb_true_iff, Z.ltb_lt. intuition lia.
  - split; [intro Hf; discriminate Hf | intros [Hge _]; lia].
Qed.

(** C4, as the code has it: [tractor_update_model] returns true exactly when,
    in the state it leaves, the public engine speed is at least 68 and the
    LED counter is odd and below 12 (the first 12 ticks of the blink cycle of
    76 ticks); over the counter values of one cycle this makes six flashes. *)
Theorem led_on_after_update : forall m,
  let r := tractor_update_model m in
  let t := tractor (snd r) in
  (fst r = true <->
   tractor_get_engine_speed t >= ENGINE_SPEED_MIN /\
   Z.odd (led_counter t) = true /\ led_counter t < 12) /\
  (tractor_get_engine_speed t >= ENGINE_SPEED_MIN ->
   length (filter (fun c => is_led_on (with_led_counter c t))
                  led_cycle_values) = 6%nat).
Proof.
  intros m r t. split.
  - unfold r, t. rewrite update_model_led. apply is_led_on_spec.
  - intro Hge.
    rewrite (filter_ext (fun c => is_led_on (with_led_counter c t))
                        (fun c => Z.odd c && (c <? 12))).
    + reflexivity.
    + intro c. unfold is_led_on.
      change (tractor_get_engine_speed (with_led_counter c t))
        with (tractor_get_engine_speed t).
      destruct (Z.geb_spec (tractor_get_engine_speed t) ENGINE_SPEED_MIN);
        [|lia].
      cbn [led_counter with_led_counter].
      rewrite land_1_odd, negb_involutive. reflexivity.
Qed.

(** C3: while RUNNING the setpoint stored is the argument clamped into
    [ENGINE_SPEED_IDLE, ENGINE_SPEED_MAX], the argument itself when it lies
    in that range, and nothing else changes; in any other status the call
    leaves the tractor as it is. *)
Theorem set_engine_speed_setpoint_clamps : forall setpoint t,
  let t' := tractor_set_engine_speed_setpoint setpoint t in
  (status t = ENGINE_RUNNING ->
   t' = with_setpoint (engine_speed_setpoint t') t /\
   ENGINE_SPEED_IDLE <= engine_speed_setpoint t' <= ENGINE_SPEED_MAX /\
   (setpoint < ENGINE_SPEED_IDLE ->
    engine_speed_setpoint t' = ENGINE_SPEED_IDLE) /\
   (ENGINE_SPEED_MAX < setpoint ->
    engine_speed_setpoint t' = ENGINE_SPEED_MAX) /\
   (ENGINE_SPEED_IDLE <= setpoint <= ENGINE_SPEED_MAX ->
    engine_speed_setpoint t' = setpoint)) /\
  (status t <> ENGINE_RUNNING -> t' = t).
Proof.
  intros setpoint t t'. unfold t', tractor_set_engine_speed_setpoint.
  unfold ENGINE_SPEED_IDLE, ENGINE_SPEED_MAX.
  split.
  - intros ->. cbn [engine_speed_setpoint with_setpoint].
    split; [reflexivity|].
    destruct (Z.gtb_spec setpoint 168); destruct (Z.ltb_spec setpoint 64);
      lia.
  - intro Hne. destruct (status t); [reflexivity | reflexivity | congruence].
Qed.

(** C10, as the code has it: [tractor_set_ignition_position] stores its
    argument as it is, and with any stored value other than [IGNITION_OFF]
    and [IGNITION_START] an update does what it does with [IGNITION_ON]:
    from OFF the status stays OFF; from RUNNING it stays RUNNING; from
    CRANKING it goes to OFF with setpoint 0, unless the incremented cranking
    counter exceeds [CRANKING_MINIMUM_TIME], in which case it goes to RUNNING
    with the idle setpoint. *)
Theorem ignition_other_values_act_as_on : forall position m,
  position <> IGNITION_OFF ->
  position <> IGNITION_START ->
  let with_position p :=
    {| tractor := tractor_set_ignition_position p (tractor m);
       horn_player := horn_player m |} in
  let r := tractor_update_model (with_position position) in
  let r_on := tractor_update_model (with_position IGNITION_ON) in
  let t' := tractor (snd r) in
  tractor_set_ignition_position position (tractor m) =
    with_ignition position (tractor m) /\
  ignition_position (tractor (with_position position)) = position /\
  fst r = fst r_on /\
  horn_player (snd r) = horn_player (snd r_on) /\
  t' = with_ignition position (tractor (snd r_on)) /\
  (status (tractor m) = ENGINE_OFF -> status t' = ENGINE_OFF) /\
  (status (tractor m) = ENGINE_RUNNING -> status t' = ENGINE_RUNNING) /\
  (status (tractor m) = ENGINE_CRANKING ->
   u8 (cranking_counter (tractor m) + 1) <= CRANKING_MINIMUM_TIME ->
   status t' = ENGINE_OFF /\ engine_speed_setpoint t' = 0) /\
  (status (tractor m) = ENGINE_CRANKING ->
   u8 (cranking_counter (tractor m) + 1) > CRANKING_MINIMUM_TIME ->
   status t' = ENGINE_RUNNING /\
   engine_speed_setpoint t' = ENGINE_SPEED_IDLE).
Proof.
  intros position m Hoff Hstart. cbv zeta.
  assert ((position =? 0) = false) as E0 by (apply Z.eqb_neq; exact Hoff).
  assert ((position =? 2) = false) as E2 by (apply Z.eqb_neq; exact Hstart).
  destruct m as [[es hc st sp ig cc lc] h].
  unfold tractor_update_model, tractor_set_ignition_position.
  unfold IGNITION_OFF, IGNITION_START in Hoff, Hstart.
  destruct st; tractor_unfold; rewrite ?E0, ?E2;
    change (1 =? 0) with false; change (1 =? 2) with false; tractor_unfold.
  - repeat apply conj; try reflexivity; intro Hst; discriminate Hst.
  - destruct (Z.gtb_spec (u8 (cc + 1)) CRANKING_MINIMUM_TIME);
      tractor_unfold;
      repeat apply conj; try reflexivity;
        try (intro Hst; discriminate Hst);
        intros _ Hc; try lia; split; reflexivity.
  - destruct (u8 (Z.shiftr es 8) >=? ENGINE_SPEED_MIN);
      [destruct (u16 (hc + 1) =? HORN_CYCLE / 2);
       [|destruct (u16 (hc + 1) >=? HORN_CYCLE)]|];
      tractor_unfold; destruct (u8 (lc + 1) >? LED_CYCLE); tractor_unfold;
      repeat apply conj; try reflexivity; intro Hst; discriminate Hst.
Qed.

(** ** tractor_model: cranking *)

Lemma off_to_cranking : forall t,
  status t = ENGINE_OFF ->
  ignition_position t = IGNITION_START ->
  let t' := fst (tractor_update_status t) in
  status t' = ENGINE_CRANKING /\ ignition_position t' = IGNITION_START /\
  cranking_counter t' = 0 /\ engine_speed_setpoint t' = CRANKING_ENGINE_SPEED.
Proof.
  intros [es hc st sp ig cc lc] Hst Hig. cbn in Hst, Hig. subst st ig.
  tractor_unfold. change (2 =? 2) with true. tractor_unfold.
  repeat split.
Qed.

Lemma cranking_step : forall t,
  status t = ENGINE_CRANKING ->
  ignition_position t = IGNITION_START ->
  0 <= cranking_counter t < CRANKING_MINIMUM_TIME ->
  let t' := fst (tractor_update_status t) in
  status t' = ENGINE_CRANKING /\ ignition_position t' = IGNITION_START /\
  cranking_counter t' = cranking_counter t + 1 /\
  engine_speed_setpoint t' = engine_speed_setpoint t.
Proof.
  intros [es hc st sp ig cc lc] Hst Hig Hcc. cbn in Hst, Hig, Hcc.
  subst st ig. tractor_unfold. change (2 =? 2) with true.
  change CRANKING_MINIMUM_TIME with 100 in *.
  rewrite u8_small by lia.
  destruct (Z.gtb_spec (cc + 1) 100); [lia|]. tractor_unfold.
  repeat split.
Qed.

Lemma cranking_done : forall t,
  status t = ENGINE_CRANKING ->
  cranking_counter t = CRANKING_MINIMUM_TIME ->
  let t' := fst (tractor_update_status t) in
  status t' = ENGINE_RUNNING /\ ignition_position t' = ignition_position t /\
  engine_speed_setpoint t' = ENGINE_SPEED_IDLE /\
  horn_counter t' = 0 /\ led_counter t' = LED_CYCLE.
Proof.
  intros [es hc st sp ig cc lc] Hst Hcc. cbn in Hst, Hcc. subst st cc.
  tractor_unfold. repeat split.
Qed.

Lemma running_led_restart : forall t,
  status t = ENGINE_RUNNING ->
  ignition_position t <> IGNITION_OFF ->
  led_counter t = LED_CYCLE ->
  led_counter (fst (tractor_update_status t)) = 0.
Proof.
  intros [es hc st sp ig cc lc] Hst Hig Hlc. cbn in Hst, Hig, Hlc.
  subst st lc. unfold IGNITION_OFF in Hig.
  tractor_unfold.
  destruct (Z.eqb_spec ig 0) as [|_]; [contradiction|].
  destruct (u8 (Z.shiftr es 8) >=? ENGINE_SPEED_MIN);
    [destruct (u16 (hc + 1) =? HORN_CYCLE / 2);
     [|destruct (u16 (hc + 1) >=? HORN_CYCLE)]|];
    reflexivity.
Qed.

Lemma cranking_updates : forall k m,
  cranking_at (cranking_counter (tractor m)) (tractor m) ->
  0 <= cranking_counter (tractor m) ->
  cranking_counter (tractor m) + Z.of_nat k <= CRANKING_MINIMUM_TIME ->
  cranking_at (cranking_counter (tractor m) + Z.of_nat k)
              (tractor (updates k m)).
Proof.
  induction k as [|k IH]; intros m Hat Hlo Hhi.
  - rewrite Z.add_0_r. exact Hat.
  - destruct Hat as (Hst & Hig & _ & Hsp).
    destruct (cranking_step (tractor m) Hst Hig) as (Hst' & Hig' & Hcc' & Hsp');
      [lia|].
    cbn [updates]. rewrite <- update_model_tractor in Hst', Hig', Hcc', Hsp'.
    replace (cranking_counter (tractor m) + Z.of_nat (S k))
      with (cranking_counter (tractor (snd (tractor_update_model m))) +
            Z.of_nat k) by lia.
    apply IH; [|lia|lia].
    repeat split; congruence.
Qed.

(** C1, as the code has it: from status OFF with the ignition held at START,
    the first update enters CRANKING with the counter at 0; the status stays
    CRANKING for the first 101 updates, the counter reaching 100; the next
    update, on which the counter exceeds [CRANKING_MINIMUM_TIME], enters
    RUNNING with the idle setpoint, the horn counter at 0 and the LED counter
    at [LED_CYCLE], from where the following update wraps it to 0. *)
Theorem cranking_then_running : forall m,
  status (tractor m) = ENGINE_OFF ->
  ignition_position (tractor m) = IGNITION_START ->
  (forall n, (1 <= n <= 101)%nat ->
     cranking_at (Z.of_nat n - 1) (tractor (updates n m))) /\
  (let t := tractor (updates 102 m) in
   status t = ENGINE_RUNNING /\
   engine_speed_setpoint t = ENGINE_SPEED_IDLE /\
   horn_counter t = 0 /\
   led_counter t = LED_CYCLE) /\
  led_counter (tractor (updates 103 m)) = 0.
Proof.
  intros m Hst Hig.
  destruct (off_to_cranking (tractor m) Hst Hig) as (Hst1 & Hig1 & Hcc1 & Hsp1).
  rewrite <- update_model_tractor in Hst1, Hig1, Hcc1, Hsp1.
  set (m1 := snd (tractor_update_model m)) in *.
  assert (forall k, (k <= 100)%nat ->
            cranking_at (Z.of_nat k) (tractor (updates k m1))) as Hrun.
  { intros k Hk.
    pose proof (cranking_updates k m1) as H. rewrite Hcc1 in H.
    apply H; [repeat split; assumption | lia |].
    change CRANKING_MINIMUM_TIME with 100. lia. }
  assert (forall k, updates (S k) m = updates k m1) as Hshift
    by (intro k; reflexivity).
  destruct (Hrun 100%nat (le_n _)) as (Hst100 & Hig100 & Hcc100 & _).
  destruct (cranking_done (tractor (updates 100 m1)) Hst100 Hcc100)
    as (Hst' & Hig' & Hsp' & Hhc' & Hlc').
  rewrite <- update_model_tractor, <- updates_succ in Hst', Hig', Hsp', Hhc', Hlc'.
  split; [|split].
  - intros n Hn. destruct n as [|k]; [lia|]. rewrite Hshift.
    replace (Z.of_nat (S k) - 1) with (Z.of_nat k) by lia.
    apply Hrun. lia.
  - rewrite (Hshift 101%nat). repeat split; assumption.
  - rewrite (Hshift 102%nat), updates_succ, update_model_tractor.
    apply running_led_restart; [assumption | | assumption].
    rewrite Hig', Hig100. discriminate.
Qed.

(** ** tractor_model: automatic honks *)

Lemma running_honk_step : forall t,
  status t = ENGINE_RUNNING ->
  ignition_position t <> IGNITION_OFF ->
  let step := tractor_update_status t in
  let c := u16 (horn_counter t + 1) in
  status (fst step) = ENGINE_RUNNING /\
  ignition_position (fst step) = ignition_position t /\
  (tractor_get_engine_speed t >= ENGINE_SPEED_MIN ->
   snd step = (if c =? HORN_CYCLE / 2 then Some SONG_DOUBLE_HONK
               else if c >=? HORN_CYCLE then Some SONG_SINGLE_HONK
               else None) /\
   horn_counter (fst step) = (if c =? HORN_CYCLE / 2 then c
                              else if c >=? HORN_CYCLE then 0 else c)) /\
  (tractor_get_engine_speed t < ENGINE_SPEED_MIN ->
   snd step = None /\ horn_counter (fst step) = horn_counter t).
Proof.
  intros [es hc st sp ig cc lc] Hst Hig. cbn in Hst, Hig. subst st.
  unfold IGNITION_OFF in Hig. cbv zeta. tractor_unfold.
  destruct (Z.eqb_spec ig 0) as [|_]; [contradiction|].
  destruct (Z.geb_spec (u8 (Z.shiftr es 8)) ENGINE_SPEED_MIN) as [Hge|Hlt].
  - destruct (u16 (hc + 1) =? HORN_CYCLE / 2);
      [|destruct (u16 (hc + 1) >=? HORN_CYCLE)];
      tractor_unfold; destruct (u8 (lc + 1) >? LED_CYCLE); tractor_unfold;
      (split; [reflexivity|]; split; [reflexivity|];
       split; [intros _; split; reflexivity | intro; lia]).
  - tractor_unfold; destruct (u8 (lc + 1) >? LED_CYCLE); tractor_unfold;
      (split; [reflexivity|]; split; [reflexivity|];
       split; [intro; lia | intros _; split; reflexivity]).
Qed.

Lemma quiet_updates : forall k m,
  status (tractor m) = ENGINE_RUNNING ->
  ignition_position (tractor m) <> IGNITION_OFF ->
  (0 <= horn_counter (tractor m) /\
   horn_counter (tractor m) + Z.of_nat k < HORN_CYCLE / 2) \/
  (HORN_CYCLE / 2 <= horn_counter (tractor m) /\
   horn_counter (tractor m) + Z.of_nat k < HORN_CYCLE) ->
  (forall j, (j < k)%nat ->
     tractor_get_engine_speed (tractor (updates j m)) >= ENGINE_SPEED_MIN) ->
  honks k m = repeat None k /\
  status (tractor (updates k m)) = ENGINE_RUNNING /\
  ignition_position (tractor (updates k m)) <> IGNITION_OFF /\
  horn_counter (tractor (updates k m)) =
    horn_counter (tractor m) + Z.of_nat k.
Proof.
  induction k as [|k IH]; intros m Hst Hig Hc Hspeed.
  - cbn [honks updates repeat]. repeat split; try assumption. cbn; lia.
  - destruct (running_honk_step (tractor m) Hst Hig) as (Hst' & Hig' & Hhi & _).
    destruct (Hhi (Hspeed 0%nat ltac:(lia))) as [Hreq Hhc]. clear Hhi.
    change (HORN_CYCLE / 2) with 200 in *. change HORN_CYCLE with 400 in *.
    rewrite u16_small in Hreq, Hhc by lia.
    destruct (Z.eqb_spec (horn_counter (tractor m) + 1) 200); [lia|].
    destruct (Z.geb_spec (horn_counter (tractor m) + 1) 400); [lia|].
    rewrite <- update_model_tractor in Hst', Hig', Hhc.
    destruct (IH (snd (tractor_update_model m))) as (Hh & Hs & Hi & Hn).
    + exact Hst'.
    + rewrite Hig'. exact Hig.
    + rewrite Hhc. lia.
    + intros j Hj. apply (Hspeed (S j)). lia.
    + cbn [honks updates repeat]. rewrite Hh, Hreq, Hn, Hhc.
      repeat split; try assumption. lia.
Qed.

Lemma stays_running_ignition : forall t,
  status t = ENGINE_RUNNING ->
  (status (fst (tractor_update_status t)) = ENGINE_RUNNING <->
   ignition_position t <> IGNITION_OFF).
Proof.
  intros [es hc st sp ig cc lc] Hst. cbn in Hst. subst st.
  tractor_unfold. unfold IGNITION_OFF.
  destruct (Z.eqb_spec ig 0) as [->|Hne].
  - tractor_unfold. split; [intro Hf; discriminate Hf | intro Hf; lia].
  - split; [intros _; exact Hne|]. intros _.
    destruct (u8 (Z.shiftr es 8) >=? ENGINE_SPEED_MIN);
      [destruct (u16 (hc + 1) =? HORN_CYCLE / 2);
       [|destruct (u16 (hc + 1) >=? HORN_CYCLE)]|];
      tractor_unfold; destruct (u8 (lc + 1) >? LED_CYCLE); reflexivity.
Qed.

(** The songs asked for and the horn counter, update by update and over a
    cycle of 400 updates. *)
Lemma horn_cycle_requests : forall m,
  status (tractor m) = ENGINE_RUNNING ->
  status (tractor (snd (tractor_update_model m))) = ENGINE_RUNNING ->
  let t := tractor m in
  let step := tractor_update_status t in
  let c := u16 (horn_counter t + 1) in
  (tractor_get_engine_speed t >= ENGINE_SPEED_MIN ->
   snd step = (if c =? HORN_CYCLE / 2 then Some SONG_DOUBLE_HONK
               else if c >=? HORN_CYCLE then Some SONG_SINGLE_HONK
               else None) /\
   horn_counter (fst step) = (if c =? HORN_CYCLE / 2 then c
                              else if c >=? HORN_CYCLE then 0 else c)) /\
  (tractor_get_engine_speed t < ENGINE_SPEED_MIN ->
   snd step = None /\ horn_counter (fst step) = horn_counter t) /\
  (horn_counter t = 0 ->
   (forall k, (k < 400)%nat ->
      tractor_get_engine_speed (tractor (updates k m)) >= ENGINE_SPEED_MIN) ->
   honks 400 m = horn_cycle_honks /\
   horn_counter (tractor (updates 400 m)) = 0 /\
   status (tractor (updates 400 m)) = ENGINE_RUNNING).
Proof.
  intros m Hst Hstays t step c.
  rewrite update_model_tractor in Hstays.
  pose proof (proj1 (stays_running_ignition (tractor m) Hst) Hstays) as Hig.
  destruct (running_honk_step (tractor m) Hst Hig) as (_ & _ & Hhi & Hlo).
  split; [exact Hhi|]. split; [exact Hlo|].
  clear Hhi Hlo. intros Hzero Hspeed.
  (* updates 1 .. 199 *)
  destruct (quiet_updates 199 m Hst Hig) as (Hh1 & Hs1 & Hi1 & Hc1).
  { left. fold t. rewrite Hzero. cbn. lia. }
  { intros j Hj. apply Hspeed. lia. }
  fold t in Hc1. rewrite Hzero in Hc1.
  pose proof (Hspeed 199%nat ltac:(lia)) as Hv1.
  remember (updates 199 m) as m1 eqn:Em1.
  (* update 200 *)
  destruct (running_honk_step (tractor m1) Hs1 Hi1) as (Hs2 & Hi2 & Hhi & _).
  destruct (Hhi Hv1) as [Hreq2 Hc2]. clear Hhi.
  rewrite Hc1 in Hreq2, Hc2.
  change (u16 (0 + Z.of_nat 199 + 1)) with 200 in Hreq2, Hc2.
  change (200 =? HORN_CYCLE / 2) with true in Hreq2, Hc2.
  cbv iota in Hreq2, Hc2.
  rewrite <- update_model_tractor in Hs2, Hi2, Hc2.
  assert (snd (tractor_update_model m1) = updates 200 m) as Em2
    by (rewrite Em1, <- updates_succ; reflexivity).
  remember (snd (tractor_update_model m1)) as m2 eqn:Em2'.
  (* updates 201 .. 399 *)
  destruct (quiet_updates 199 m2 Hs2) as (Hh3 & Hs3 & Hi3 & Hc3).
  { rewrite Hi2. exact Hi1. }
  { right. rewrite Hc2. cbn. lia. }
  { intros j Hj. rewrite Em2, <- updates_add. apply Hspeed. lia. }
  rewrite Hc2 in Hc3.
  assert (updates 199 m2 = updates 399 m) as Em3
    by (rewrite Em2, <- updates_add; reflexivity).
  pose proof (Hspeed 399%nat ltac:(lia)) as Hv3. rewrite <- Em3 in Hv3.
  remember (updates 199 m2) as m3 eqn:Em3'.
  (* update 400 *)
  destruct (running_honk_step (tractor m3) Hs3 Hi3) as (Hs4 & _ & Hhi & _).
  destruct (Hhi Hv3) as [Hreq4 Hc4]. clear Hhi.
  rewrite Hc3 in Hreq4, Hc4.
  change (u16 (200 + Z.of_nat 199 + 1)) with 400 in Hreq4, Hc4.
  change (400 =? HORN_CYCLE / 2) with false in Hreq4, Hc4.
  change (400 >=? HORN_CYCLE) with true in Hreq4, Hc4.
  cbv iota in Hreq4, Hc4.
  rewrite <- update_model_tractor in Hc4, Hs4.
  split; [|split].
  - change 400%nat with (199 + (1 + (199 + 1)))%nat.
    rewrite honks_add, <- Em1, honks_add.
    change (updates 1 m1) with (snd (tractor_update_model m1)).
    rewrite <- Em2', honks_add, <- Em3'.
    rewrite Hh1, Hh3. cbn [honks]. rewrite Hreq2, Hreq4. reflexivity.
  - change 400%nat with (S 399). rewrite updates_succ, <- Em3. exact Hc4.
  - change 400%nat with (S 399). rewrite updates_succ, <- Em3. exact Hs4.
Qed.

Lemma update_model_horn : forall m,
  horn_player (snd (tractor_update_model m)) =
  audio_horn_manager
    (match snd (tractor_update_status (tractor m)) with
     | Some s => audio_play_horn_song s (horn_player m)
     | None => horn_player m
     end).
Proof.
  intro m. unfold tractor_update_model.
  destruct (tractor_update_status (tractor m)) as [t request].
  reflexivity.
Qed.

Lemma honks_nth : forall n k m,
  (k < n)%nat ->
  nth k (honks n m) None =
  snd (tractor_update_status (tractor (updates k m))).
Proof.
  induction n as [|n IH]; intros k m Hk; [lia|].
  destruct k as [|k]; [reflexivity|].
  cbn [honks nth updates]. apply IH. lia.
Qed.

(** C7: while the status is RUNNING (before and after the update), an update
    made at a public speed of at least 68 increments the horn counter and,
    when the counter reaches [HORN_CYCLE / 2], starts the double honk in the
    horn player; when it reaches [HORN_CYCLE], starts the single honk and
    resets the counter to 0; otherwise the horn player only gets its tick.
    Below 68 the counter is left alone and no song is started.  Over the 400
    updates of a cycle begun at counter 0 with the speed staying at 68 or
    more, the double honk is started once, by update 200, and the single
    honk once, by update 400, which brings the counter back to 0; every
    other update of the cycle gives the horn player its tick and nothing
    else. *)
Theorem horn_cycle_auto_honks : forall m,
  status (tractor m) = ENGINE_RUNNING ->
  status (tractor (snd (tractor_update_model m))) = ENGINE_RUNNING ->
  let t := tractor m in
  let step := tractor_update_status t in
  let c := u16 (horn_counter t + 1) in
  let m' := snd (tractor_update_model m) in
  tractor m' = fst step /\
  (tractor_get_engine_speed t >= ENGINE_SPEED_MIN ->
   snd step = (if c =? HORN_CYCLE / 2 then Some SONG_DOUBLE_HONK
               else if c >=? HORN_CYCLE then Some SONG_SINGLE_HONK
               else None) /\
   horn_counter (tractor m') = (if c =? HORN_CYCLE / 2 then c
                                else if c >=? HORN_CYCLE then 0 else c) /\
   horn_player m' =
     audio_horn_manager
       (if c =? HORN_CYCLE / 2 then
          audio_play_horn_song SONG_DOUBLE_HONK (horn_player m)
        else if c >=? HORN_CYCLE then
          audio_play_horn_song SONG_SINGLE_HONK (horn_player m)
        else horn_player m)) /\
  (tractor_get_engine_speed t < ENGINE_SPEED_MIN ->
   snd step = None /\
   horn_counter (tractor m') = horn_counter t /\
   horn_player m' = audio_horn_manager (horn_player m)) /\
  (horn_counter t = 0 ->
   (forall k, (k < 400)%nat ->
      tractor_get_engine_speed (tractor (updates k m)) >= ENGINE_SPEED_MIN) ->
   honks 400 m = horn_cycle_honks /\
   horn_counter (tractor (updates 400 m)) = 0 /\
   status (tractor (updates 400 m)) = ENGINE_RUNNING /\
   (forall k, (k < 400)%nat ->
      horn_player (updates (S k) m) =
      audio_horn_manager
        (match nth k horn_cycle_honks None with
         | Some s => audio_play_horn_song s (horn_player (updates k m))
         | None => horn_player (updates k m)
         end)) /\
   horn_player (updates 200 m) =
     audio_horn_manager
       (audio_play_horn_song SONG_DOUBLE_HONK (horn_player (updates 199 m))) /\
   horn_player (updates 400 m) =
     audio_horn_manager
       (audio_play_horn_song SONG_SINGLE_HONK (horn_player (updates 399 m))) /\
   (playing (horn_player (updates 200 m)) = true /\
    current_note (horn_player (updates 200 m)) = 0 /\
    song (horn_player (updates 200 m)) = SONG [64; 64; 0; 64; 64]) /\
   (playing (horn_player (updates 400 m)) = true /\
    current_note (horn_player (updates 400 m)) = 0 /\
    song (horn_player (updates 400 m)) = SONG [64; 64; 64])).
Proof.
  intros m Hst Hstays t step c m'.
  destruct (horn_cycle_requests m Hst Hstays) as (Hhi & Hlo & Hcycle).
  fold t in Hhi, Hlo, Hcycle. fold step in Hhi, Hlo. fold c in Hhi.
  assert (tractor m' = fst step) as Ht by apply update_model_tractor.
  assert (horn_player m' =
          audio_horn_manager
            (match snd step with
             | Some s => audio_play_horn_song s (horn_player m)
             | None => horn_player m
             end)) as Hh by apply update_model_horn.
  split; [exact Ht|]. split; [|split].
  - intro Hge. destruct (Hhi Hge) as [Hreq Hhc].
    split; [exact Hreq|]. split; [rewrite Ht; exact Hhc|].
    rewrite Hh, Hreq.
    destruct (c =? HORN_CYCLE / 2); [reflexivity|].
    destruct (c >=? HORN_CYCLE); reflexivity.
  - intro Hlt. destruct (Hlo Hlt) as [Hreq Hhc].
    split; [exact Hreq|]. split; [rewrite Ht; exact Hhc|].
    rewrite Hh, Hreq. reflexivity.
  - intros Hzero Hspeed.
    destruct (Hcycle Hzero Hspeed) as (Hhonks & Hhc & Hs).
    assert (forall k, (k < 400)%nat ->
              horn_player (updates (S k) m) =
              audio_horn_manager
                (match nth k horn_cycle_honks None with
                 | Some s =>
                     audio_play_horn_song s (horn_player (updates k m))
                 | None => horn_player (updates k m)
                 end)) as Hplayer.
    { intros k Hk.
      rewrite updates_succ, update_model_horn, <- Hhonks.
      rewrite (honks_nth 400 k m Hk). reflexivity. }
    pose proof (Hplayer 199%nat ltac:(lia)) as H200.
    pose proof (Hplayer 399%nat ltac:(lia)) as H400.
    change (nth 199 horn_cycle_honks None) with (Some SONG_DOUBLE_HONK)
      in H200.
    change (nth 399 horn_cycle_honks None) with (Some SONG_SINGLE_HONK)
      in H400.
    cbv iota in H200, H400.
    split; [exact Hhonks|]. split; [exact Hhc|]. split; [exact Hs|].
    split; [exact Hplayer|]. split; [exact H200|]. split; [exact H400|].
    split; [rewrite H200 | rewrite H400]; repeat split.
Qed.

Lemma cruising_speed : forall t,
  cruising t -> tractor_get_engine_speed t >= ENGINE_SPEED_MIN.
Proof.
  intros t (_ & _ & _ & Hes). unfold tractor_get_engine_speed.
  unfold ENGINE_SPEED_MIN in *.
  rewrite Z.shiftr_div_pow2 by lia. change (2 ^ 8) with 256.
  assert (68 <= engine_speed t / 256 < 256) as Hq
    by (split; [apply Z.div_le_lower_bound | apply Z.div_lt_upper_bound];
        lia).
  rewrite u8_small; lia.
Qed.

Lemma slow_filter_keeps_speed : forall es sp,
  68 * 256 <= es < 65536 -> 68 <= sp < 256 ->
  68 * 256 <=
  u16 (Z.shiftr (u32 (u32 (Z.shiftl es 6) - es +
                      u16 (Z.shiftl (u16 sp) 8))) 6) < 65536.
Proof.
  intros es sp Hes Hsp.
  rewrite (u16_small sp) by lia.
  rewrite !Z.shiftl_mul_pow2, Z.shiftr_div_pow2 by lia.
  change (2 ^ 6) with 64. change (2 ^ 8) with 256.
  rewrite (u32_small (es * 64)), (u16_small (sp * 256)) by lia.
  rewrite u32_small by lia.
  assert (68 * 256 <= (es * 64 - es + sp * 256) / 64 < 65536) as Hq
    by (split; [apply Z.div_le_lower_bound | apply Z.div_lt_upper_bound];
        lia).
  rewrite u16_small; lia.
Qed.

Lemma cruising_step : forall t,
  cruising t -> cruising (fst (tractor_update_status t)).
Proof.
  intros t Hc. pose proof (cruising_speed t Hc) as Hv. revert Hc Hv.
  destruct t as [es hc st sp ig cc lc].
  intros (Hst & Hig & Hsp & Hes) Hv. cbn in Hst, Hig, Hsp, Hes. subst st.
  unfold cruising. change (u8 (Z.shiftr es 8) >= ENGINE_SPEED_MIN) in Hv.
  unfold IGNITION_OFF, ENGINE_SPEED_MIN in *.
  pose proof (slow_filter_keeps_speed es sp Hes Hsp) as Hf.
  tractor_unfold.
  destruct (Z.eqb_spec ig 0) as [|_]; [contradiction|].
  destruct (Z.geb_spec (u8 (Z.shiftr es 8)) ENGINE_SPEED_MIN) as [_|Hlt];
    [|unfold ENGINE_SPEED_MIN in Hlt; lia].
  destruct (u16 (hc + 1) =? HORN_CYCLE / 2);
    [|destruct (u16 (hc + 1) >=? HORN_CYCLE)];
    tractor_unfold; destruct (u8 (lc + 1) >? LED_CYCLE); tractor_unfold;
    repeat split; assumption || lia.
Qed.

Lemma cruising_updates : forall k m,
  cruising (tractor m) -> cruising (tractor (updates k m)).
Proof.
  induction k as [|k IH]; intros m Hc; [exact Hc|].
  cbn [updates]. apply IH. rewrite update_model_tractor.
  apply cruising_step. exact Hc.
Qed.

(** ** Evaluations *)

(** C1, counterexample: after the update that enters RUNNING the LED counter
    is 75, not 0. *)
Lemma led_counter_after_cranking_not_zero :
  ~ (status (tractor (updates 102 model_start)) = ENGINE_RUNNING /\
     engine_speed_setpoint (tractor (updates 102 model_start)) =
     ENGINE_SPEED_IDLE /\
     horn_counter (tractor (updates 102 model_start)) = 0 /\
     led_counter (tractor (updates 102 model_start)) = 0).
Proof.
  intros (_ & _ & _ & Hled). vm_compute in Hled. discriminate Hled.
Qed.

Lemma cranking_then_running_witness :
  status (tractor model_start) = ENGINE_OFF /\
  ignition_position (tractor model_start) = IGNITION_START /\
  led_counter (tractor (updates 102 model_start)) = LED_CYCLE /\
  led_counter (tractor (updates 103 model_start)) = 0.
Proof.
  destruct (cranking_then_running model_start eq_refl eq_refl)
    as (_ & (_ & _ & _ & Hled) & Hnext).
  split; [reflexivity|]. split; [reflexivity|].
  split; [exact Hled | exact Hnext].
Defined.

(** C2, counterexample: engine stopped, first note of the single honk
    sounding: the sample returned is the horn sample 200. *)
Lemma silent_engine_with_horn_not_silent :
  ~ (engine (fst (audio_get_next_sample engine_table_sample 4
                    horn_table_sample 4 0 honk_requested
                    sample_index_init)) = 0 /\
     snd (audio_get_next_sample engine_table_sample 4
            horn_table_sample 4 0 honk_requested sample_index_init) = 128).
Proof.
  intros [_ Hs]. vm_compute in Hs. discriminate Hs.
Qed.

Lemma silent_engine_returns_horn_sample_witness :
  snd (audio_get_next_sample engine_table_sample 4 horn_table_sample 4
         0 horn_init sample_index_init) = 128.
Proof.
  destruct (silent_engine_returns_horn_sample engine_table_sample 4
              horn_table_sample 4 horn_init sample_index_init)
    as (_ & _ & _ & Hsilent).
  destruct (Hsilent eq_refl) as [Hs _]. exact Hs.
Defined.

Lemma set_engine_speed_setpoint_clamps_witness :
  status (tractor model_cruising) = ENGINE_RUNNING /\
  engine_speed_setpoint
    (tractor_set_engine_speed_setpoint 200 (tractor model_cruising)) =
  ENGINE_SPEED_MAX /\
  tractor_set_engine_speed_setpoint 200 (tractor model_start) =
  tractor model_start.
Proof.
  destruct (set_engine_speed_setpoint_clamps 200 (tractor model_cruising))
    as [Hrun _].
  destruct (Hrun eq_refl) as (_ & _ & _ & Hmax & _).
  destruct (set_engine_speed_setpoint_clamps 200 (tractor model_start))
    as [_ Hoff].
  split; [reflexivity|]. split.
  - apply Hmax. reflexivity.
  - apply Hoff. intro H. discriminate H.
Defined.

(** C4, counterexample: speed 100, LED counter 13 after the update, which is
    odd and in the first half of the cycle of 76 ticks; the LED is off. *)
Lemma led_off_within_first_half :
  ~ (fst (tractor_update_model model_cruising) = true <->
     tractor_get_engine_speed
       (tractor (snd (tractor_update_model model_cruising))) >=
     ENGINE_SPEED_MIN /\
     Z.odd (led_counter
              (tractor (snd (tractor_update_model model_cruising)))) = true /\
     led_counter (tractor (snd (tractor_update_model model_cruising))) <
     LED_CYCLE / 2).
Proof.
  intros [_ H].
  assert (fst (tractor_update_model model_cruising) = true) as Hon
    by (apply H; repeat split; vm_compute; congruence).
  vm_compute in Hon. discriminate Hon.
Qed.

Lemma led_on_after_update_witness :
  tractor_get_engine_speed
    (tractor (snd (tractor_update_model model_cruising))) >=
  ENGINE_SPEED_MIN /\
  length (filter
            (fun c => is_led_on
                        (with_led_counter c
                           (tractor (snd (tractor_update_model
                                            model_cruising)))))
            led_cycle_values) = 6%nat.
Proof.
  destruct (led_on_after_update model_cruising) as [_ Hsix].
  assert (tractor_get_engine_speed
            (tractor (snd (tractor_update_model model_cruising))) >=
          ENGINE_SPEED_MIN) as Hge by (vm_compute; congruence).
  split; [exact Hge | exact (Hsix Hge)].
Defined.

(** C5, at index 14 with [engine_speed = 4]: the new index is 15, offset 15
    of 16, and the sample is entry 0 of the table, not entry 1. *)
Lemma engine_sample_is_entry_below_witness :
  fst (engine_track engine_table_sample 4 4 index_at_14) = 15 /\
  snd (engine_track engine_table_sample 4 4 index_at_14) =
  AVR_PGM_READ_BYTE engine_table_sample 0 /\
  snd (engine_track engine_table_sample 4 4 index_at_14) <>
  AVR_PGM_READ_BYTE engine_table_sample 1.
Proof.
  destruct (engine_sample_is_entry_below engine_table_sample 4 4 index_at_14)
    as [Hidx Hsample].
  - lia.
  - simpl; lia.
  - simpl; lia.
  - cbv zeta in Hidx, Hsample. split; [|split].
    + rewrite Hidx. reflexivity.
    + rewrite Hsample, Hidx. reflexivity.
    + rewrite Hsample, Hidx. vm_compute. congruence.
Defined.

(** C6, counterexample: a rest lasts one tick, a sounding note four. *)
Lemma rest_not_longer_than_note :
  ~ (note_duration 0 > note_duration 64).
Proof.
  intro H. vm_compute in H. discriminate H.
Qed.

Lemma horn_manager_note_timing_witness :
  playing honk_requested = true /\
  note_counter (audio_horn_manager honk_requested) = 1 /\
  current_note (audio_horn_manager honk_requested) = 0.
Proof.
  destruct (horn_manager_note_timing honk_requested eq_refl)
    as (_ & _ & Hwait & _).
  destruct Hwait as (Hc & Hn & _); [reflexivity|].
  split; [reflexivity|]. split; [exact Hc | exact Hn].
Defined.

Lemma horn_cycle_auto_honks_witness :
  status (tractor model_cruising) = ENGINE_RUNNING /\
  status (tractor (snd (tractor_update_model model_cruising))) =
  ENGINE_RUNNING /\
  honks 400 model_cruising = horn_cycle_honks /\
  horn_counter (tractor (updates 400 model_cruising)) = 0 /\
  song (horn_player (updates 200 model_cruising)) =
  SONG [64; 64; 0; 64; 64] /\
  playing (horn_player (updates 400 model_cruising)) = true.
Proof.
  assert (status (tractor (snd (tractor_update_model model_cruising))) =
          ENGINE_RUNNING) as Hstays by reflexivity.
  destruct (horn_cycle_auto_honks model_cruising eq_refl Hstays)
    as (_ & _ & _ & Hcycle).
  destruct (Hcycle eq_refl)
    as (Hh & Hc & _ & _ & _ & _ & (_ & _ & Hdouble) & (Hsingle & _)).
  - intros k _. apply cruising_speed, cruising_updates.
    repeat split; vm_compute; congruence.
  - split; [reflexivity|]. split; [exact Hstays|].
    split; [exact Hh|]. split; [exact Hc|].
    split; [exact Hdouble | exact Hsingle].
Defined.

(** C8, counterexample: the single honk has three notes; thirteen ticks
    after the request the note index is 4. *)
Lemma note_index_passes_song_size :
  ~ (current_note single_honk_played <= size (song single_honk_played)).
Proof.
  intro H. vm_compute in H. apply H. reflexivity.
Qed.

Lemma horn_note_index_bound_witness :
  playing (horn_calls [PlayHornSong SONG_DIXIE; HornManager] horn_init) =
  true /\
  current_note (horn_calls [PlayHornSong SONG_DIXIE; HornManager] horn_init)
  <= size (song (horn_calls [PlayHornSong SONG_DIXIE; HornManager]
                   horn_init)).
Proof.
  destruct (horn_note_index_bound [PlayHornSong SONG_DIXIE; HornManager])
    as (_ & _ & Hplay & _).
  split; [reflexivity | exact (Hplay eq_refl)].
Defined.


(** C10, counterexample: cranking with the counter at 100 and the ignition
    at a value that is neither OFF nor START: the update enters RUNNING. *)
Lemma cranking_completes_without_start :
  status (tractor model_cranked) = ENGINE_CRANKING /\
  ignition_position (tractor model_cranked) <> IGNITION_OFF /\
  ignition_position (tractor model_cranked) <> IGNITION_START /\
  ~ (status (tractor (snd (tractor_update_model model_cranked))) =
     ENGINE_OFF /\
     engine_speed_setpoint
       (tractor (snd (tractor_update_model model_cranked))) = 0).
Proof.
  split; [reflexivity|]. split; [intro H; discriminate H|]. split.
  - intro H. discriminate H.
  - intros [H _]. vm_compute in H. discriminate H.
Qed.

Lemma ignition_other_values_act_as_on_witness :
  7 <> IGNITION_OFF /\ 7 <> IGNITION_START /\
  status (tractor (snd (tractor_update_model model_cranked))) =
  ENGINE_RUNNING /\
  engine_speed_setpoint (tractor (snd (tractor_update_model model_cranked))) =
  ENGINE_SPEED_IDLE.
Proof.
  assert (7 <> IGNITION_OFF) as Hoff by (intro H; discriminate H).
  assert (7 <> IGNITION_START) as Hstart by (intro H; discriminate H).
  destruct (ignition_other_values_act_as_on 7 model_cranked Hoff Hstart)
    as (_ & _ & _ & _ & _ & _ & _ & _ & Hdone).
  destruct Hdone as [Hst Hsp]; [reflexivity | reflexivity |].
  split; [exact Hoff|]. split; [exact Hstart|].
  split; [exact Hst | exact Hsp].
Defined.

(** * Further properties *)

(** ** button_manager: decoding and click bits *)

(** X1: the level decoded from an ADC value, button by button: ON is
    pressed above [ADC_THRESHOLD_OFF], START above [ADC_THRESHOLD_ON_HORN],
    HORN between [ADC_THRESHOLD_ON] and [ADC_THRESHOLD_ON_HORN] and above
    [ADC_THRESHOLD_ON_START]; START and HORN are never reported without
    ON. *)
Theorem button_levels_by_band : forall adc_value b,
  let b' := button_set_adc_value adc_value b in
  button_is_pressed BUTTON_ON b' = (ADC_THRESHOLD_OFF <? adc_value) /\
  button_is_pressed BUTTON_START b' = (ADC_THRESHOLD_ON_HORN <? adc_value) /\
  button_is_pressed BUTTON_HORN b' =
    ((ADC_THRESHOLD_ON <? adc_value) && (adc_value <=? ADC_THRESHOLD_ON_HORN)
     || (ADC_THRESHOLD_ON_START <? adc_value)) /\
  (button_is_pressed BUTTON_START b' || button_is_pressed BUTTON_HORN b' =
   true -> button_is_pressed BUTTON_ON b' = true).
Proof.
  intros adc b b'. unfold b', button_set_adc_value, button_is_pressed.
  cbn [button_level]. unfold button_new_level.
  unfold ADC_THRESHOLD_OFF, ADC_THRESHOLD_ON, ADC_THRESHOLD_ON_HORN,
    ADC_THRESHOLD_ON_START.
  destruct (Z.leb_spec adc 23); destruct (Z.leb_spec adc 63);
    destruct (Z.leb_spec adc 99); destruct (Z.leb_spec adc 186);
    try lia;
    destruct (Z.ltb_spec 23 adc); destruct (Z.ltb_spec 63 adc);
    destruct (Z.ltb_spec 99 adc); destruct (Z.ltb_spec 186 adc);
    try lia; repeat split; intros; reflexivity || assumption.
Qed.

Lemma new_level_values : forall adc_value,
  In (button_new_level adc_value) [0; 1; 5; 3; 7].
Proof.
  intro adc. unfold button_new_level.
  repeat match goal with
         | |- context [if ?c then _ else _] => destruct c
         end; simpl; tauto.
Qed.

Lemma low3_land : forall x, 0 <= x <= 7 <-> Z.land x 7 = x.
Proof.
  intro x.
  replace (Z.land x 7) with (x mod 8)
    by (change 7 with (Z.ones 3); rewrite Z.land_ones by lia; reflexivity).
  split.
  - intro H. apply Z.mod_small. lia.
  - intro H. pose proof (Z.mod_pos_bound x 8). lia.
Qed.

Lemma land_7_low3 : forall x, 0 <= Z.land x 7 <= 7.
Proof.
  intro x.
  replace (Z.land x 7) with (x mod 8)
    by (change 7 with (Z.ones 3); rewrite Z.land_ones by lia; reflexivity).
  pose proof (Z.mod_pos_bound x 8). lia.
Qed.

Lemma land_low3 : forall c z, 0 <= c <= 7 -> 0 <= Z.land c z <= 7.
Proof.
  intros c z Hc. apply low3_land in Hc. rewrite <- Hc.
  rewrite <- Z.land_assoc, (Z.land_comm 7 z), Z.land_assoc.
  apply land_7_low3.
Qed.

Lemma lor_low3 : forall a b, 0 <= a <= 7 -> 0 <= b <= 7 -> 0 <= Z.lor a b <= 7.
Proof.
  intros a b Ha Hb. apply low3_land. apply low3_land in Ha, Hb.
  rewrite Z.land_lor_distr_l, Ha, Hb. reflexivity.
Qed.

Lemma button_call_inv : forall b c,
  In (button_level b) [0; 1; 5; 3; 7] /\ 0 <= button_clicked b <= 7 ->
  In (button_level (button_call b c)) [0; 1; 5; 3; 7] /\
  0 <= button_clicked (button_call b c) <= 7.
Proof.
  intros b c [Hl Hc]. destruct c as [adc|button]; cbn [button_call].
  - split; [apply new_level_values|].
    unfold button_set_adc_value. cbn [button_clicked].
    change (Z.shiftl 1 BUTTON_COUNT - 1) with 7.
    pose proof (lor_low3 _ _ Hc
                  (land_7_low3 (Z.land (Z.lnot (button_level b))
                                       (button_new_level adc)))) as H.
    rewrite u8_small; lia.
  - split; [exact Hl|]. cbn [button_is_clicked snd button_clicked].
    pose proof (land_low3 _ (Z.lnot (u8 (BM button))) Hc) as H.
    rewrite u8_small; lia.
Qed.

(** X2: whatever ADC values are decoded and whatever click flags are read
    (for any button number), the level is one of the five masks of the
    resistive network and only the click bits of the three buttons can be
    set. *)
Theorem button_state_stays_defined : forall cs,
  In (button_level (button_calls cs buttons_init)) [0; 1; 5; 3; 7] /\
  0 <= button_clicked (button_calls cs buttons_init) <= 7.
Proof.
  intro cs.
  assert (forall b,
            In (button_level b) [0; 1; 5; 3; 7] /\ 0 <= button_clicked b <= 7 ->
            In (button_level (button_calls cs b)) [0; 1; 5; 3; 7] /\
            0 <= button_clicked (button_calls cs b) <= 7) as Hgen.
  { induction cs as [|c cs IH]; intros b Hb; [exact Hb|].
    unfold button_calls in *. cbn [fold_left]. apply IH.
    apply button_call_inv. exact Hb. }
  apply Hgen. simpl. split; [tauto | lia].
Qed.

(** X3: [button_set_adc_value] records a click on a rising edge only: the
    click bit of a button becomes set when the button was not pressed and is
    pressed now, and is left as it was otherwise (button held, released or
    idle). *)
Theorem click_set_on_rising_edge_only : forall button adc_value b,
  0 <= button < BUTTON_COUNT ->
  Z.testbit (button_clicked (button_set_adc_value adc_value b)) button =
  Z.testbit (button_clicked b) button
  || (negb (Z.testbit (button_level b) button)
      && Z.testbit (button_new_level adc_value) button).
Proof.
  intros button adc b Hb. unfold BUTTON_COUNT in Hb.
  unfold button_set_adc_value. cbn [button_clicked].
  rewrite u8_testbit, Z.lor_spec, !Z.land_spec, Z.lnot_spec by lia.
  change (Z.shiftl 1 BUTTON_COUNT - 1) with 7.
  assert (button = 0 \/ button = 1 \/ button = 2) as [-> | [-> | ->]] by lia;
    cbn [Z.ltb Z.compare Pos.compare Pos.compare_cont andb];
    change (Z.testbit 7 0) with true; change (Z.testbit 7 1) with true;
    change (Z.testbit 7 2) with true; rewrite andb_true_r; reflexivity.
Qed.

Lemma click_set_on_rising_edge_only_witness :
  0 <= BUTTON_HORN < BUTTON_COUNT /\
  Z.testbit (button_clicked (button_set_adc_value 70 buttons_init))
            BUTTON_HORN = true.
Proof.
  assert (0 <= BUTTON_HORN < BUTTON_COUNT) as Hb
    by (vm_compute; split; congruence).
  split; [exact Hb|].
  rewrite (click_set_on_rising_edge_only BUTTON_HORN 70 buttons_init Hb).
  reflexivity.
Defined.

(** ** sound_manager: samples and indices *)

Section MoreSamples.

Variable ENGINE_RUNNING : list Z.
Variable ENGINE_RUNNING_SIZE : Z.
Variable TRACTOR_HORN : list Z.
Variable TRACTOR_HORN_SIZE : Z.

Lemma engine_sample_range : forall engine_speed si,
  0 <= snd (engine_track ENGINE_RUNNING ENGINE_RUNNING_SIZE engine_speed si)
    < 256.
Proof.
  intros engine_speed si. unfold engine_track.
  destruct (negb (engine_speed =? 0)); [|simpl; lia].
  cbv zeta.
  repeat match goal with
         | |- context [if ?c then _ else _] => destruct c
         end; simpl; apply u8_range || apply read_byte_range.
Qed.

Lemma mix_range : forall e h, 0 <= mix e h < 256.
Proof. intros e h. unfold mix. apply u8_range. Qed.

Lemma mix_saturates : forall e h,
  mix e h = Z.max 0 (Z.min 255 (e + h - 128)).
Proof.
  intros e h. unfold mix.
  destruct (Z.gtb_spec (e + h - 128) 255);
    [|destruct (Z.ltb_spec (e + h - 128) 0)];
    rewrite u8_small; lia.
Qed.

Lemma mix_silent_horn : forall e, 0 <= e < 256 -> mix e 128 = e.
Proof. intros e He. rewrite mix_saturates. lia. Qed.

(** X4: the sample returned by [audio_get_next_sample] is always a byte; it
    is the sum of the two track samples with the offset 128 removed,
    saturated to [0, 255]; when the horn is not sounding it is the engine
    sample itself, and when the engine is stopped too it is 128. *)
Theorem audio_sample_mixes_tracks : forall engine_speed h si,
  let r := audio_get_next_sample ENGINE_RUNNING ENGINE_RUNNING_SIZE
             TRACTOR_HORN TRACTOR_HORN_SIZE engine_speed h si in
  let e := snd (engine_track ENGINE_RUNNING ENGINE_RUNNING_SIZE
                  engine_speed si) in
  let s := snd (horn_track TRACTOR_HORN TRACTOR_HORN_SIZE h si) in
  0 <= snd r < 256 /\
  snd r = Z.max 0 (Z.min 255 (e + s - 128)) /\
  (playing h && negb (index_increment h =? 0) = false -> snd r = e) /\
  (playing h && negb (index_increment h =? 0) = false ->
   engine_speed = 0 -> snd r = 128).
Proof.
  intros engine_speed h si r e s. unfold r, audio_get_next_sample.
  pose proof (engine_sample_range engine_speed si) as He. fold e in He.
  assert (forall silent,
            playing h && negb (index_increment h =? 0) = false ->
            silent = s -> silent = 128) as Hs.
  { intros silent Hq ->. unfold s, horn_track. rewrite Hq. reflexivity. }
  unfold e, s in *.
  destruct (engine_track ENGINE_RUNNING ENGINE_RUNNING_SIZE engine_speed si)
    as [ei es] eqn:Ee.
  destruct (horn_track TRACTOR_HORN TRACTOR_HORN_SIZE h si) as [hi hs].
  cbn [fst snd] in *.
  split; [apply mix_range|]. split; [apply mix_saturates|].
  split.
  - intro Hq. rewrite (Hs hs Hq eq_refl). apply mix_silent_horn. exact He.
  - intros Hq ->. rewrite (Hs hs Hq eq_refl).
    unfold engine_track in Ee. cbn in Ee. inversion Ee. reflexivity.
Qed.

Lemma engine_index_range : forall engine_speed si,
  0 <= engine_speed < 256 ->
  64 <= Z.shiftl ENGINE_RUNNING_SIZE 4 <= 65536 - 64 ->
  0 <= engine si < Z.shiftl ENGINE_RUNNING_SIZE 4 ->
  0 <= fst (engine_track ENGINE_RUNNING ENGINE_RUNNING_SIZE engine_speed si)
    < Z.shiftl ENGINE_RUNNING_SIZE 4.
Proof.
  intros engine_speed si Hs Hsize He. unfold engine_track.
  set (mx := Z.shiftl ENGINE_RUNNING_SIZE 4) in *.
  destruct (Z.eqb_spec engine_speed 0) as [|_]; cbn [negb fst]; [lia|].
  cbv zeta. cbn [fst].
  assert (0 <= Z.shiftr engine_speed 2 < 64) as Hinc.
  { rewrite Z.shiftr_div_pow2 by lia. change (2 ^ 2) with 4.
    split; [apply Z.div_pos; lia | apply Z.div_lt_upper_bound; lia]. }
  rewrite (u16_small (engine si + Z.shiftr engine_speed 2)) by lia.
  destruct (Z.geb_spec (engine si + Z.shiftr engine_speed 2) mx);
    [rewrite u16_small by lia|]; lia.
Qed.

Lemma horn_index_wraps : forall h si,
  0 <= index_increment h < 256 ->
  256 <= Z.shiftl TRACTOR_HORN_SIZE 6 <= 65536 - 256 ->
  0 <= horn si < Z.shiftl TRACTOR_HORN_SIZE 6 ->
  playing h && negb (index_increment h =? 0) = true ->
  fst (horn_track TRACTOR_HORN TRACTOR_HORN_SIZE h si) =
  (horn si + index_increment h) mod Z.shiftl TRACTOR_HORN_SIZE 6.
Proof.
  intros h si Hi Hsize Hh Hq. unfold horn_track. rewrite Hq.
  set (mx := Z.shiftl TRACTOR_HORN_SIZE 6) in *.
  cbv zeta. cbn [fst].
  rewrite (u16_small (horn si + index_increment h)) by lia.
  destruct (Z.geb_spec (horn si + index_increment h) mx).
  - rewrite u16_small by lia. apply Z.mod_unique with (q := 1); lia.
  - symmetry. apply Z.mod_small. lia.
Qed.

Lemma horn_index_range : forall h si,
  0 <= index_increment h < 256 ->
  256 <= Z.shiftl TRACTOR_HORN_SIZE 6 <= 65536 - 256 ->
  0 <= horn si < Z.shiftl TRACTOR_HORN_SIZE 6 ->
  0 <= fst (horn_track TRACTOR_HORN TRACTOR_HORN_SIZE h si)
    < Z.shiftl TRACTOR_HORN_SIZE 6.
Proof.
  intros h si Hi Hsize Hh.
  destruct (playing h && negb (index_increment h =? 0)) eqn:Hq.
  - rewrite horn_index_wraps by assumption. apply Z.mod_pos_bound. lia.
  - unfold horn_track. rewrite Hq. cbn [fst]. lia.
Qed.

(** X5: both sample indices stay inside their track: from the initial
    indices, after any sequence of calls of [audio_get_next_sample] with
    8-bit engine speeds and horn increments, the engine index is below
    [ENGINE_RUNNING_SIZE << 4] and the horn index below
    [TRACTOR_HORN_SIZE << 6] (for tracks long enough for one subtraction to
    wrap the index, and short enough for the 16-bit index). *)
Theorem sample_indices_stay_in_track : forall calls,
  64 <= Z.shiftl ENGINE_RUNNING_SIZE 4 <= 65536 - 64 ->
  256 <= Z.shiftl TRACTOR_HORN_SIZE 6 <= 65536 - 256 ->
  Forall (fun c => 0 <= fst c < 256 /\ 0 <= index_increment (snd c) < 256)
         calls ->
  let si := audio_samples ENGINE_RUNNING ENGINE_RUNNING_SIZE
              TRACTOR_HORN TRACTOR_HORN_SIZE calls sample_index_init in
  0 <= engine si < Z.shiftl ENGINE_RUNNING_SIZE 4 /\
  0 <= horn si < Z.shiftl TRACTOR_HORN_SIZE 6.
Proof.
  intros calls He Hh Hcalls.
  assert (forall si0,
            0 <= engine si0 < Z.shiftl ENGINE_RUNNING_SIZE 4 /\
            0 <= horn si0 < Z.shiftl TRACTOR_HORN_SIZE 6 ->
            let si := audio_samples ENGINE_RUNNING ENGINE_RUNNING_SIZE
                        TRACTOR_HORN TRACTOR_HORN_SIZE calls si0 in
            0 <= engine si < Z.shiftl ENGINE_RUNNING_SIZE 4 /\
            0 <= horn si < Z.shiftl TRACTOR_HORN_SIZE 6) as Hgen.
  { induction Hcalls as [|[speed h] calls [Hspeed Hinc] _ IH];
      intros si0 Hsi0; [exact Hsi0|].
    unfold audio_samples in *. cbn [fold_left fst snd] in *.
    apply IH. destruct Hsi0 as [He0 Hh0].
    pose proof (engine_index_range speed si0 Hspeed He He0) as He1.
    pose proof (horn_index_range h si0 Hinc Hh Hh0) as Hh1.
    unfold audio_get_next_sample.
    destruct (engine_track ENGINE_RUNNING ENGINE_RUNNING_SIZE speed si0).
    destruct (horn_track TRACTOR_HORN TRACTOR_HORN_SIZE h si0).
    cbn [fst snd engine horn] in *. split; assumption. }
  apply Hgen. cbn [sample_index_init engine horn]. lia.
Qed.

(** X6: while a note sounds the horn index advances by the increment of the
    note modulo [TRACTOR_HORN_SIZE << 6], and the sample follows the low six
    bits of the new index: the table entry below in the first quarter, the
    halves of both neighbours added in the middle half, the entry above in
    the last quarter. *)
Theorem horn_sample_interpolates : forall h si,
  playing h = true ->
  0 < index_increment h < 256 ->
  256 <= Z.shiftl TRACTOR_HORN_SIZE 6 <= 65536 - 256 ->
  0 <= horn si < Z.shiftl TRACTOR_HORN_SIZE 6 ->
  let r := horn_track TRACTOR_HORN TRACTOR_HORN_SIZE h si in
  let index := fst r / 64 in
  let offset := fst r mod 64 in
  fst r = (horn si + index_increment h) mod Z.shiftl TRACTOR_HORN_SIZE 6 /\
  (offset < 16 -> snd r = AVR_PGM_READ_BYTE TRACTOR_HORN index) /\
  (16 <= offset < 48 ->
   snd r = AVR_PGM_READ_BYTE TRACTOR_HORN index / 2 +
           AVR_PGM_READ_BYTE TRACTOR_HORN (index + 1) / 2) /\
  (48 <= offset -> snd r = AVR_PGM_READ_BYTE TRACTOR_HORN (index + 1)).
Proof.
  intros h si Hp Hi Hsize Hh r index offset.
  assert (playing h && negb (index_increment h =? 0) = true) as Hq.
  { rewrite Hp. destruct (Z.eqb_spec (index_increment h) 0); [lia|]. 
    reflexivity. }
  split; [apply horn_index_wraps; assumption || lia|].
  assert (0 <= fst r) as Hr
    by (apply (horn_index_range h si); assumption || lia).
  unfold index, offset, r in *. clear index offset r.
  unfold horn_track in *. rewrite Hq in *. cbv zeta in *. cbn [fst snd] in *.
  set (h2 := if u16 (horn si + index_increment h) >=?
                Z.shiftl TRACTOR_HORN_SIZE 6
             then u16 (u16 (horn si + index_increment h) -
                       Z.shiftl TRACTOR_HORN_SIZE 6)
             else u16 (horn si + index_increment h)) in *.
  rewrite Z.shiftr_div_pow2 by lia. change (2 ^ 6) with 64.
  replace (Z.land h2 63) with (h2 mod 64)
    by (change 63 with (Z.ones 6); rewrite Z.land_ones by lia; reflexivity).
  pose proof (Z.mod_pos_bound h2 64 ltac:(lia)) as Ho.
  rewrite (u8_small (h2 mod 64)) by lia.
  pose proof (read_byte_range TRACTOR_HORN (h2 / 64)) as Hb0.
  pose proof (read_byte_range TRACTOR_HORN (h2 / 64 + 1)) as Hb1.
  rewrite !Z.shiftr_div_pow2 by lia. change (2 ^ 1) with 2.
  destruct (Z.ltb_spec (h2 mod 64) 16); [|destruct (Z.ltb_spec (h2 mod 64) 48)].
  - split; [reflexivity|]. split; intro; lia.
  - split; [intro; lia|]. split; [|intro; lia]. intros _.
    apply u8_small.
    assert (0 <= AVR_PGM_READ_BYTE TRACTOR_HORN (h2 / 64) / 2 < 128)
      by (split; [apply Z.div_pos | apply Z.div_lt_upper_bound]; lia).
    assert (0 <= AVR_PGM_READ_BYTE TRACTOR_HORN (h2 / 64 + 1) / 2 < 128)
      by (split; [apply Z.div_pos | apply Z.div_lt_upper_bound]; lia).
    lia.
  - split; [intro; lia|]. split; [intro; lia|]. reflexivity.
Qed.

End MoreSamples.

Lemma sample_indices_stay_in_track_witness :
  64 <= Z.shiftl 4 4 <= 65536 - 64 /\
  256 <= Z.shiftl 4 6 <= 65536 - 256 /\
  0 <= horn (audio_samples engine_table_sample 4 horn_table_sample 4
               [(100, honk_requested); (0, honk_requested);
                (255, honk_requested); (255, honk_requested);
                (255, honk_requested)] sample_index_init)
    < Z.shiftl 4 6.
Proof.
  assert (64 <= Z.shiftl 4 4 <= 65536 - 64) as He by (simpl; lia).
  assert (256 <= Z.shiftl 4 6 <= 65536 - 256) as Hh by (simpl; lia).
  split; [exact He|]. split; [exact Hh|].
  apply (sample_indices_stay_in_track engine_table_sample 4
           horn_table_sample 4
           [(100, honk_requested); (0, honk_requested);
            (255, honk_requested); (255, honk_requested);
            (255, honk_requested)] He Hh).
  repeat (apply Forall_cons || apply Forall_nil);
    vm_compute; repeat split; congruence.
Defined.

Lemma horn_sample_interpolates_witness :
  playing honk_requested = true /\
  snd (horn_track horn_table_sample 4 honk_requested
         {| engine := 0; horn := 96 |}) =
  AVR_PGM_READ_BYTE horn_table_sample 2 / 2 +
  AVR_PGM_READ_BYTE horn_table_sample 3 / 2.
Proof.
  split; [reflexivity|].
  destruct (horn_sample_interpolates horn_table_sample 4 honk_requested
              {| engine := 0; horn := 96 |})
    as (_ & _ & Hmid & _).
  - reflexivity.
  - vm_compute. split; reflexivity.
  - simpl; lia.
  - simpl; lia.
  - apply Hmid. vm_compute. split; congruence.
Defined.

Lemma audio_sample_mixes_tracks_witness :
  snd (audio_get_next_sample engine_table_sample 4 horn_table_sample 4
         100 horn_init index_at_14) =
  snd (engine_track engine_table_sample 4 100 index_at_14).
Proof.
  destruct (audio_sample_mixes_tracks engine_table_sample 4
              horn_table_sample 4 100 horn_init index_at_14)
    as (_ & _ & Hpass & _).
  exact (Hpass eq_refl).
Defined.

(** ** sound_manager: the horn player over time *)

Lemma horn_coherent_init : horn_coherent horn_init.
Proof.
  split; [apply horn_inv_init|]. split; [vm_compute; split; congruence|].
  reflexivity.
Qed.

Lemma horn_coherent_play : forall s h,
  horn_coherent h -> horn_coherent (audio_play_horn_song s h).
Proof.
  intros s h Hc. split; [apply horn_inv_play; apply Hc|].
  destruct Hc as (_ & Hn & Hi). unfold audio_play_horn_song.
  destruct (s <? SONG_COUNT); cbn [note_counter index_increment song
                                    current_note].
  - split; [vm_compute; split; congruence | reflexivity].
  - split; assumption.
Qed.

Lemma horn_coherent_manager : forall h,
  horn_coherent h -> horn_coherent (audio_horn_manager h).
Proof.
  intros h Hc. split; [apply horn_inv_manager; apply Hc|].
  destruct Hc as (_ & Hn & Hi). unfold audio_horn_manager.
  destruct (playing h); [|split; assumption].
  change HORN_NOTE_DURATION with 4 in *.
  rewrite (u8_small (note_counter h + 1)) by lia.
  assert (note_duration (index_increment h) = 1 \/
          note_duration (index_increment h) = 4) as Hd
    by (unfold note_duration; destruct (negb (index_increment h =? 0));
        [right | left]; reflexivity).
  destruct (Z.geb_spec (note_counter h + 1)
                       (note_duration (index_increment h)));
    cbn [note_counter index_increment song current_note];
    (split; [lia | reflexivity]).
Qed.

Lemma horn_coherent_calls : forall cs h,
  horn_coherent h -> horn_coherent (horn_calls cs h).
Proof.
  induction cs as [|c cs IH]; intros h Hc; [exact Hc|].
  unfold horn_calls in *. cbn [fold_left]. apply IH.
  destruct c; [apply horn_coherent_play | apply horn_coherent_manager];
    exact Hc.
Qed.

(** X8: between calls of the horn player the cached [index_increment] is
    the note at [current_note] of the copied song, the note counter is below
    [HORN_NOTE_DURATION], and the copied song is the empty one or a song of
    the library. *)
Theorem horn_cache_coherent : forall cs,
  let h := horn_calls cs horn_init in
  index_increment h = note_at (song h) (current_note h) /\
  0 <= note_counter h < HORN_NOTE_DURATION /\
  (song h = empty_song \/ In (song h) SONG_LIBRARY).
Proof.
  intros cs h.
  destruct (horn_coherent_calls cs horn_init horn_coherent_init)
    as ((Hsong & _) & Hn & Hi).
  split; [exact Hi|]. split; [exact Hn | exact Hsong].
Qed.

Lemma stopped_horn_stays : forall n h,
  playing h = false -> horn_ticks n h = h.
Proof.
  induction n as [|n IH]; intros h Hp; [reflexivity|].
  cbn [horn_ticks]. unfold audio_horn_manager at 1. rewrite Hp.
  apply IH. exact Hp.
Qed.

Lemma playing_tick_counts_down : forall h,
  horn_coherent h ->
  playing h = true ->
  1 <= horn_ticks_left h /\
  horn_ticks_left (audio_horn_manager h) < horn_ticks_left h.
Proof.
  intros h ((Hsong & Hcur & Hplay) & Hn & _) Hp.
  specialize (Hplay Hp). pose proof (library_song_size _ Hsong) as Hsize.
  unfold horn_ticks_left, audio_horn_manager. rewrite Hp.
  change HORN_NOTE_DURATION with 4 in *.
  rewrite (u8_small (note_counter h + 1)) by lia.
  split; [lia|].
  destruct (Z.geb_spec (note_counter h + 1)
                       (note_duration (index_increment h)));
    cbn [note_counter song current_note size].
  - rewrite (u8_small (current_note h + 1)) by lia. lia.
  - lia.
Qed.

Lemma horn_stops_within : forall n h,
  horn_coherent h ->
  horn_ticks_left h <= Z.of_nat n \/ playing h = false ->
  playing (horn_ticks n h) = false.
Proof.
  induction n as [|n IH]; intros h Hc Hleft.
  - cbn [horn_ticks]. destruct Hleft as [Hleft|Hp]; [|exact Hp].
    destruct (playing h) eqn:Hp; [|reflexivity].
    destruct (playing_tick_counts_down h Hc Hp) as [H1 _]. cbn in Hleft. lia.
  - cbn [horn_ticks]. apply IH; [apply horn_coherent_manager; exact Hc|].
    destruct (playing h) eqn:Hp.
    + left. destruct (playing_tick_counts_down h Hc Hp) as [_ Hdown].
      destruct Hleft as [Hleft|Hf]; [lia | discriminate Hf].
    + right. unfold audio_horn_manager. rewrite Hp. exact Hp.
Qed.

(** X7: a song always ends: in any state the horn player can be in,
    [horn_ticks_left] calls of [audio_horn_manager] (at most four per
    remaining slot, never more than 96) leave it stopped, and once stopped
    it is not changed by further calls until a song is requested. *)
Theorem horn_song_ends : forall cs n,
  let h := horn_calls cs horn_init in
  horn_ticks_left h <= 96 /\
  (horn_ticks_left h <= Z.of_nat n -> playing (horn_ticks n h) = false) /\
  (playing h = false -> horn_ticks n h = h).
Proof.
  intros cs n h.
  pose proof (horn_coherent_calls cs horn_init horn_coherent_init) as Hc.
  fold h in Hc.
  split; [|split].
  - destruct Hc as ((Hsong & Hcur & _) & Hn & _).
    pose proof (library_song_size _ Hsong).
    unfold horn_ticks_left. change HORN_NOTE_DURATION with 4 in *. lia.
  - intro Hleft. apply horn_stops_within; [exact Hc | left; exact Hleft].
  - apply stopped_horn_stays.
Qed.

Lemma horn_song_ends_witness :
  horn_ticks_left (horn_calls [PlayHornSong SONG_DIXIE] horn_init) <=
  Z.of_nat 96 /\
  playing (horn_ticks 96 (horn_calls [PlayHornSong SONG_DIXIE] horn_init)) =
  false.
Proof.
  assert (horn_ticks_left (horn_calls [PlayHornSong SONG_DIXIE] horn_init) <=
          Z.of_nat 96) as Hleft by (vm_compute; congruence).
  split; [exact Hleft|].
  destruct (horn_song_ends [PlayHornSong SONG_DIXIE] 96) as (_ & Hends & _).
  exact (Hends Hleft).
Defined.

(** ** tractor_model: the speed filter *)

Lemma filter_value : forall a es sp,
  0 <= a <= 8 -> 0 <= es < 65536 -> 0 <= sp < 256 ->
  u16 (Z.shiftr (u32 (u32 (Z.shiftl es a) - es +
                      u16 (Z.shiftl (u16 sp) 8))) a) =
  ((2 ^ a - 1) * es + 256 * sp) / 2 ^ a /\
  Z.min es (256 * sp) <= ((2 ^ a - 1) * es + 256 * sp) / 2 ^ a
    <= Z.max es (256 * sp).
Proof.
  intros a es sp Ha Hes Hsp.
  assert (1 <= 2 ^ a <= 256) as Hp.
  { split; [apply (Z.pow_le_mono_r 2 0 a); lia|].
    change 256 with (2 ^ 8). apply Z.pow_le_mono_r; lia. }
  rewrite (u16_small sp) by lia.
  rewrite !Z.shiftl_mul_pow2, Z.shiftr_div_pow2 by lia.
  change (2 ^ 8) with 256. set (p := 2 ^ a) in *.
  assert (Z.min es (256 * sp) <= ((p - 1) * es + 256 * sp) / p
          <= Z.max es (256 * sp)) as Hq.
  { split; [apply Z.div_le_lower_bound | apply Z.div_le_upper_bound]; nia. }
  rewrite (u32_small (es * p)), (u16_small (sp * 256)) by nia.
  rewrite u32_small by nia.
  replace (es * p - es + sp * 256) with ((p - 1) * es + 256 * sp) by lia.
  split; [apply u16_small; lia | exact Hq].
Qed.

(** X9: one step of the speed filter [update_engine_speed a] replaces the
    speed [x] by [((2^a - 1) * x + 256 * setpoint) / 2^a], rounded down:
    the new speed lies between the old one and the setpoint (in BP14), so
    the filter never overshoots, and no other field of the tractor
    changes. *)
Theorem filter_moves_towards_setpoint : forall a t,
  0 <= a <= 8 ->
  0 <= engine_speed t < 65536 ->
  0 <= engine_speed_setpoint t < 256 ->
  let t' := update_engine_speed a t in
  engine_speed t' =
    ((2 ^ a - 1) * engine_speed t + 256 * engine_speed_setpoint t) / 2 ^ a /\
  Z.min (engine_speed t) (256 * engine_speed_setpoint t) <= engine_speed t'
    <= Z.max (engine_speed t) (256 * engine_speed_setpoint t) /\
  t' = with_engine_speed (engine_speed t') t.
Proof.
  intros a t Ha Hes Hsp t'.
  destruct (filter_value a (engine_speed t) (engine_speed_setpoint t)
              Ha Hes Hsp) as [Hv Hb].
  unfold t', update_engine_speed. cbn [engine_speed with_engine_speed].
  rewrite Hv. split; [reflexivity|]. split; [exact Hb | reflexivity].
Qed.

Lemma filter_moves_towards_setpoint_witness :
  engine_speed (update_engine_speed 6 (tractor model_cruising)) = 25600 /\
  engine_speed (update_engine_speed 2 (tractor model_cranked)) <= 6400.
Proof.
  destruct (filter_moves_towards_setpoint 6 (tractor model_cruising))
    as (Hv & _ & _); [lia | simpl; lia | simpl; lia |].
  destruct (filter_moves_towards_setpoint 2 (tractor model_cranked))
    as (_ & Hb & _); [lia | simpl; lia | vm_compute; split; congruence |].
  split.
  - rewrite Hv. reflexivity.
  - cbv zeta in Hb. destruct Hb as [_ Hb].
    eapply Z.le_trans; [exact Hb|]. vm_compute. congruence.
Defined.

(** ** tractor_model: switching off *)

Lemma off_update : forall t,
  status t = ENGINE_OFF ->
  ignition_position t <> IGNITION_START ->
  engine_speed_setpoint t = 0 ->
  0 <= engine_speed t < 65536 ->
  let t' := fst (tractor_update_status t) in
  status t' = ENGINE_OFF /\
  ignition_position t' = ignition_position t /\
  engine_speed_setpoint t' = 0 /\
  engine_speed t' = 3 * engine_speed t / 4.
Proof.
  intros [es hc st sp ig cc lc] Hst Hig Hsp Hes.
  cbn in Hst, Hig, Hsp, Hes. subst st sp. unfold IGNITION_START in Hig.
  destruct (filter_value 2 es 0 ltac:(lia) Hes ltac:(lia)) as [Hv _].
  tractor_unfold.
  destruct (Z.eqb_spec ig 2) as [|_]; [contradiction|]. tractor_unfold.
  rewrite Hv. repeat split.
  f_equal. change (2 ^ 2) with 4. lia.
Qed.

Lemma decay_shift : forall n x,
  Nat.iter n (fun x => 3 * x / 4) (3 * x / 4) =
  Nat.iter (S n) (fun x => 3 * x / 4) x.
Proof.
  induction n as [|n IH]; intro x; [reflexivity|].
  change (3 * Nat.iter n (fun x => 3 * x / 4) (3 * x / 4) / 4 =
          3 * Nat.iter (S n) (fun x => 3 * x / 4) x / 4).
  rewrite IH. reflexivity.
Qed.

Lemma off_updates : forall n m,
  status (tractor m) = ENGINE_OFF ->
  ignition_position (tractor m) <> IGNITION_START ->
  engine_speed_setpoint (tractor m) = 0 ->
  0 <= engine_speed (tractor m) < 65536 ->
  status (tractor (updates n m)) = ENGINE_OFF /\
  engine_speed (tractor (updates n m)) =
  Nat.iter n (fun x => 3 * x / 4) (engine_speed (tractor m)).
Proof.
  induction n as [|n IH]; intros m Hst Hig Hsp Hes; [split; auto|].
  destruct (off_update (tractor m) Hst Hig Hsp Hes) as (Hst' & Hig' & Hsp' & Hes').
  rewrite <- update_model_tractor in Hst', Hig', Hsp', Hes'.
  assert (0 <= 3 * engine_speed (tractor m) / 4 < 65536) as Hr
    by (split; [apply Z.div_pos | apply Z.div_lt_upper_bound]; lia).
  cbn [updates].
  destruct (IH (snd (tractor_update_model m))) as [Hs He];
    [exact Hst' | rewrite Hig'; exact Hig | exact Hsp' | rewrite Hes'; exact Hr|].
  split; [exact Hs|]. rewrite He, Hes'. apply decay_shift.
Qed.

Lemma decay_monotone : forall n x y,
  0 <= x <= y ->
  0 <= Nat.iter n (fun x => 3 * x / 4) x
    <= Nat.iter n (fun x => 3 * x / 4) y.
Proof.
  induction n as [|n IH]; intros x y Hxy; [exact Hxy|].
  specialize (IH x y Hxy).
  set (u := Nat.iter n (fun x => 3 * x / 4) x) in *.
  set (v := Nat.iter n (fun x => 3 * x / 4) y) in *.
  change (0 <= 3 * u / 4 <= 3 * v / 4).
  split; [apply Z.div_pos; lia | apply Z.div_le_mono; lia].
Qed.

(** X10: with the engine OFF, the setpoint at 0 and the ignition away from
    START, each update multiplies the speed by 3/4, rounded down: the speed
    never rises, and whatever it was it is exactly 0 after 37 updates. *)
Theorem engine_winds_down : forall m,
  status (tractor m) = ENGINE_OFF ->
  ignition_position (tractor m) <> IGNITION_START ->
  engine_speed_setpoint (tractor m) = 0 ->
  0 <= engine_speed (tractor m) < 65536 ->
  (forall n,
     status (tractor (updates n m)) = ENGINE_OFF /\
     engine_speed (tractor (updates (S n) m)) =
       3 * engine_speed (tractor (updates n m)) / 4 /\
     engine_speed (tractor (updates (S n) m)) <=
       engine_speed (tractor (updates n m))) /\
  engine_speed (tractor (updates 37 m)) = 0 /\
  tractor_get_engine_speed (tractor (updates 37 m)) = 0.
Proof.
  intros m Hst Hig Hsp Hes.
  assert (engine_speed (tractor (updates 37 m)) = 0) as Hzero.
  { destruct (off_updates 37 m Hst Hig Hsp Hes) as [_ He]. rewrite He.
    pose proof (decay_monotone 37 (engine_speed (tractor m)) 65535
                  ltac:(lia)) as Hm.
    change (Nat.iter 37 (fun x => 3 * x / 4) 65535) with 0 in Hm. lia. }
  split; [|split; [exact Hzero|]].
  - intro n.
    destruct (off_updates n m Hst Hig Hsp Hes) as [Hs He].
    destruct (off_updates (S n) m Hst Hig Hsp Hes) as [_ He'].
    pose proof (decay_monotone n (engine_speed (tractor m))
                  (engine_speed (tractor m)) ltac:(lia)) as [Hpos _].
    split; [exact Hs|]. rewrite He', He.
    set (u := Nat.iter n (fun x => 3 * x / 4) (engine_speed (tractor m)))
      in *.
    change (3 * u / 4 = 3 * u / 4 /\ 3 * u / 4 <= u).
    split; [reflexivity|].
    apply Z.div_le_upper_bound; lia.
  - unfold tractor_get_engine_speed. rewrite Hzero. reflexivity.
Qed.

Lemma engine_winds_down_witness :
  status (tractor model_switched_off) = ENGINE_OFF /\
  engine_speed (tractor model_switched_off) = 43008 /\
  engine_speed (tractor (updates 37 model_switched_off)) = 0.
Proof.
  split; [reflexivity|]. split; [reflexivity|].
  destruct (engine_winds_down model_switched_off) as (_ & Hzero & _).
  - reflexivity.
  - intro H. discriminate H.
  - reflexivity.
  - vm_compute. split; congruence.
  - exact Hzero.
Defined.

(** ** tractor_model: what every call keeps *)

Lemma filter_keeps_range : forall a es sp,
  0 <= a <= 8 -> 0 <= es <= ENGINE_SPEED_MAX * 256 ->
  0 <= sp <= ENGINE_SPEED_MAX ->
  0 <= u16 (Z.shiftr (u32 (u32 (Z.shiftl es a) - es +
                           u16 (Z.shiftl (u16 sp) 8))) a)
    <= ENGINE_SPEED_MAX * 256.
Proof.
  intros a es sp Ha Hes Hsp. unfold ENGINE_SPEED_MAX in *.
  destruct (filter_value a es sp Ha ltac:(lia) ltac:(lia)) as [Hv Hb].
  rewrite Hv. lia.
Qed.

Lemma tractor_inv_update : forall t,
  tractor_inv t -> tractor_inv (fst (tractor_update_status t)).
Proof.
  intros [es hc st sp ig cc lc] (Hes & Hhc & Hlc & Hcc & Hsp).
  cbn [engine_speed horn_counter status engine_speed_setpoint
       ignition_position cranking_counter led_counter] in *.
  change HORN_CYCLE with 400 in *. change LED_CYCLE with 75 in *.
  change CRANKING_MINIMUM_TIME with 100 in *.
  pose proof (filter_keeps_range 2 es 0 ltac:(lia) Hes
                ltac:(unfold ENGINE_SPEED_MAX; lia)) as F20.
  pose proof (filter_keeps_range 2 es CRANKING_ENGINE_SPEED ltac:(lia) Hes
                ltac:(vm_compute; split; congruence)) as F2c.
  pose proof (filter_keeps_range 4 es 0 ltac:(lia) Hes
                ltac:(unfold ENGINE_SPEED_MAX; lia)) as F40.
  pose proof (filter_keeps_range 4 es CRANKING_ENGINE_SPEED ltac:(lia) Hes
                ltac:(vm_compute; split; congruence)) as F4c.
  pose proof (filter_keeps_range 4 es ENGINE_SPEED_IDLE ltac:(lia) Hes
                ltac:(vm_compute; split; congruence)) as F4i.
  unfold tractor_inv.
  destruct st; tractor_unfold;
    change HORN_CYCLE with 400; change LED_CYCLE with 75;
    change CRANKING_MINIMUM_TIME with 100.
  - (* OFF *)
    subst sp. destruct (ig =? 2); tractor_unfold;
      repeat split; try lia; try apply F20; try apply F2c.
  - (* CRANKING *)
    destruct Hsp as [-> Hcc']. rewrite (u8_small (cc + 1)) by lia.
    destruct (Z.gtb_spec (cc + 1) 100); [|destruct (ig =? 2)];
      tractor_unfold; repeat split; try lia;
        try apply F40; try apply F4c; try apply F4i;
        vm_compute; congruence.
  - (* RUNNING *)
    pose proof (filter_keeps_range 4 es sp ltac:(lia) Hes
                  ltac:(unfold ENGINE_SPEED_IDLE in Hsp; lia)) as F4.
    pose proof (filter_keeps_range 6 es sp ltac:(lia) Hes
                  ltac:(unfold ENGINE_SPEED_IDLE in Hsp; lia)) as F6.
    change (400 / 2) with 200.
    destruct (ig =? 0); tractor_unfold;
      [repeat split; lia|].
    destruct (u8 (Z.shiftr es 8) >=? ENGINE_SPEED_MIN);
      [rewrite (u16_small (hc + 1)) by lia;
       destruct (Z.eqb_spec (hc + 1) 200);
       [|destruct (Z.geb_spec (hc + 1) 400)]|];
      tractor_unfold; rewrite (u8_small (lc + 1)) by lia;
      destruct (Z.gtb_spec (lc + 1) 75); tractor_unfold;
      repeat split; try lia; try apply F4; try apply F6.
Qed.

Lemma tractor_inv_call : forall m c,
  tractor_inv (tractor m) -> tractor_inv (tractor (tractor_call m c)).
Proof.
  intros m c Hinv. destruct c as [|position|setpoint|]; cbn [tractor_call].
  - rewrite update_model_tractor. apply tractor_inv_update. exact Hinv.
  - cbn [tractor]. destruct (tractor m) as [es hc st sp ig cc lc].
    exact Hinv.
  - cbn [tractor]. destruct (tractor m) as [es hc st sp ig cc lc].
    unfold tractor_set_engine_speed_setpoint. cbn [status] in *.
    destruct st; [exact Hinv | exact Hinv |].
    destruct Hinv as (Hes & Hhc & Hlc & Hcc & Hsp).
    unfold tractor_inv. tractor_unfold.
    repeat split; try apply Hes; try apply Hhc; try apply Hlc;
      try apply Hcc;
      unfold ENGINE_SPEED_MAX, ENGINE_SPEED_IDLE;
      destruct (Z.gtb_spec setpoint 168); destruct (Z.ltb_spec setpoint 64);
      lia.
  - unfold tractor_play_dixie_song.
    destruct (ignition_position (tractor m) =? IGNITION_OFF); [exact Hinv|].
    cbn [tractor]. destruct (tractor m) as [es hc st sp ig cc lc].
    destruct Hinv as (Hes & Hhc & Hlc & Hcc & Hsp).
    repeat split; try apply Hes; try apply Hlc; try apply Hcc;
      try exact Hsp; vm_compute; congruence.
Qed.

Lemma horn_coherent_call : forall m c,
  horn_coherent (horn_player m) ->
  horn_coherent (horn_player (tractor_call m c)).
Proof.
  intros m c Hc. destruct c as [|position|setpoint|]; cbn [tractor_call].
  - unfold tractor_update_model.
    destruct (tractor_update_status (tractor m)) as [t [s|]];
      cbn [snd horn_player]; apply horn_coherent_manager;
      [apply horn_coherent_play|]; exact Hc.
  - exact Hc.
  - exact Hc.
  - unfold tractor_play_dixie_song.
    destruct (ignition_position (tractor m) =? IGNITION_OFF); [exact Hc|].
    cbn [horn_player]. apply horn_coherent_play. exact Hc.
Qed.

(** X11: whatever sequence of [tractor_update_model],
    [tractor_set_ignition_position], [tractor_set_engine_speed_setpoint]
    and [tractor_play_dixie_song] calls is made from the initial state, with
    any arguments: the setpoint is 0 while OFF, the cranking speed while
    CRANKING and within [ENGINE_SPEED_IDLE, ENGINE_SPEED_MAX] while RUNNING;
    the horn, LED and cranking counters stay within their cycles; and the
    engine speed read by [tractor_get_engine_speed] never exceeds
    [ENGINE_SPEED_MAX]. *)
Theorem tractor_state_stays_bounded : forall cs,
  let t := tractor (tractor_calls cs model_init) in
  match status t with
  | ENGINE_OFF => engine_speed_setpoint t = 0
  | ENGINE_CRANKING =>
      engine_speed_setpoint t = CRANKING_ENGINE_SPEED /\
      cranking_counter t <= CRANKING_MINIMUM_TIME
  | ENGINE_RUNNING =>
      ENGINE_SPEED_IDLE <= engine_speed_setpoint t <= ENGINE_SPEED_MAX
  end /\
  0 <= horn_counter t < HORN_CYCLE /\
  0 <= led_counter t <= LED_CYCLE /\
  0 <= cranking_counter t <= CRANKING_MINIMUM_TIME + 1 /\
  0 <= engine_speed t <= ENGINE_SPEED_MAX * 256 /\
  0 <= tractor_get_engine_speed t <= ENGINE_SPEED_MAX /\
  horn_coherent (horn_player (tractor_calls cs model_init)).
Proof.
  intros cs t.
  assert (forall m,
            tractor_inv (tractor m) /\ horn_coherent (horn_player m) ->
            tractor_inv (tractor (tractor_calls cs m)) /\
            horn_coherent (horn_player (tractor_calls cs m))) as Hgen.
  { induction cs as [|c cs IH]; intros m Hm; [exact Hm|].
    unfold tractor_calls in *. cbn [fold_left]. apply IH.
    destruct Hm as [Ht Hh].
    split; [apply tractor_inv_call | apply horn_coherent_call]; assumption. }
  destruct (Hgen model_init) as [(Hes & Hhc & Hlc & Hcc & Hsp) Hh].
  { split; [|apply horn_coherent_init].
    repeat split; vm_compute; congruence. }
  fold t in Hes, Hhc, Hlc, Hcc, Hsp.
  repeat (split; [assumption|]).
  split; [|exact Hh].
  unfold tractor_get_engine_speed, ENGINE_SPEED_MAX in *.
  rewrite Z.shiftr_div_pow2 by lia. change (2 ^ 8) with 256.
  assert (0 <= engine_speed t / 256 <= 168)
    by (split; [apply Z.div_pos | apply Z.div_le_upper_bound]; lia).
  rewrite u8_small; lia.
Qed.

(** ** main: outputs *)

(** X12: the duty cycle computed for the DC motor: 0 exactly below
    [ENGINE_SPEED_MIN]; from there on [PWM_DC_MOTOR_MIN] plus half the speed
    above idle, capped at [PWM_DC_MOTOR_MAX]; never above the cap, never
    decreasing with the speed, and not capped for speeds up to
    [ENGINE_SPEED_MAX]. *)
Theorem motor_duty_cycle : forall speed speed',
  0 <= speed <= speed' ->
  speed' < 256 ->
  let duty := output_set_dc_motor_pwm speed in
  0 <= duty <= PWM_DC_MOTOR_MAX /\
  (duty = 0 <-> speed < ENGINE_SPEED_MIN) /\
  (ENGINE_SPEED_MIN <= speed ->
   duty = Z.min PWM_DC_MOTOR_MAX
            (PWM_DC_MOTOR_MIN + (speed - ENGINE_SPEED_IDLE) / 2)) /\
  (ENGINE_SPEED_MIN <= speed <= ENGINE_SPEED_MAX ->
   duty = PWM_DC_MOTOR_MIN + (speed - ENGINE_SPEED_IDLE) / 2) /\
  duty <= output_set_dc_motor_pwm speed'.
Proof.
  intros speed speed' Hs Hs' duty.
  assert (forall s, 0 <= s < 256 ->
            output_set_dc_motor_pwm s =
            if s <? 68 then 0 else Z.min 58 (6 + (s - 64) / 2)) as Hform.
  { intros s Hr. unfold output_set_dc_motor_pwm, ENGINE_SPEED_MIN,
      ENGINE_SPEED_IDLE, PWM_DC_MOTOR_MIN, PWM_DC_MOTOR_MAX.
    destruct (Z.ltb_spec s 68); [reflexivity|].
    rewrite Z.shiftr_div_pow2 by lia. change (2 ^ 1) with 2.
    assert (2 <= (s - 64) / 2 < 96)
      by (split; [apply Z.div_le_lower_bound | apply Z.div_lt_upper_bound];
          lia).
    rewrite u8_small by lia.
    destruct (Z.gtb_spec (6 + (s - 64) / 2) 58); lia. }
  unfold duty. rewrite (Hform speed), (Hform speed') by lia.
  unfold ENGINE_SPEED_MIN, ENGINE_SPEED_IDLE, ENGINE_SPEED_MAX,
    PWM_DC_MOTOR_MIN, PWM_DC_MOTOR_MAX.
  assert (forall s, 68 <= s -> 2 <= (s - 64) / 2)
    by (intros; apply Z.div_le_lower_bound; lia).
  assert ((speed - 64) / 2 <= (speed' - 64) / 2)
    by (apply Z.div_le_mono; lia).
  assert (speed <= 168 -> (speed - 64) / 2 <= 52)
    by (intro; apply Z.div_le_upper_bound; lia).
  destruct (Z.ltb_spec speed 68); destruct (Z.ltb_spec speed' 68);
    try lia;
    try (pose proof (H speed ltac:(lia))); pose proof (H speed');
    repeat split; intros; lia.
Qed.

Lemma motor_duty_cycle_witness :
  0 <= 168 <= 255 /\ 255 < 256 /\
  output_set_dc_motor_pwm 168 = 58 /\
  output_set_dc_motor_pwm 168 <= output_set_dc_motor_pwm 255.
Proof.
  assert (0 <= 168 <= 255) as H1 by lia.
  assert (255 < 256) as H2 by lia.
  destruct (motor_duty_cycle 168 255 H1 H2) as (_ & _ & _ & Hv & Hm).
  split; [exact H1|]. split; [exact H2|]. split; [|exact Hm].
  rewrite Hv; [reflexivity | vm_compute; split; congruence].
Defined.

(** X14: the setpoint that [main] derives from an 8-bit throttle reading is
    [ENGINE_SPEED_IDLE + (adc - ADC_THROTTLE_IDLE) / 2], rounded down, with
    no wrap-around in the conversion to [uint8_t]; stored while RUNNING, it
    is the idle speed up to reading 39, the maximum speed from reading 246
    on, and never decreases with the reading. *)
Theorem throttle_to_setpoint : forall adc adc' t,
  0 <= adc <= adc' ->
  adc' < 256 ->
  status t = ENGINE_RUNNING ->
  let stored a :=
    engine_speed_setpoint
      (tractor_set_engine_speed_setpoint (throttle_setpoint a) t) in
  throttle_setpoint adc = ENGINE_SPEED_IDLE + (adc - ADC_THROTTLE_IDLE) / 2 /\
  stored adc =
    Z.max ENGINE_SPEED_IDLE
      (Z.min ENGINE_SPEED_MAX
         (ENGINE_SPEED_IDLE + (adc - ADC_THROTTLE_IDLE) / 2)) /\
  (adc <= 39 -> stored adc = ENGINE_SPEED_IDLE) /\
  (246 <= adc -> stored adc = ENGINE_SPEED_MAX) /\
  stored adc <= stored adc'.
Proof.
  intros adc adc' t Ha Ha' Hst stored.
  assert (forall a, 0 <= a < 256 ->
            throttle_setpoint a = 64 + (a - 38) / 2 /\
            45 <= 64 + (a - 38) / 2 <= 172) as Hform.
  { intros a Hr. unfold throttle_setpoint, ENGINE_SPEED_IDLE,
      ADC_THROTTLE_IDLE.
    rewrite Z.shiftr_div_pow2 by lia. change (2 ^ 1) with 2.
    assert (-19 <= (a - 38) / 2 < 109)
      by (split; [apply Z.div_le_lower_bound | apply Z.div_lt_upper_bound];
          lia).
    split; [apply u8_small|]; lia. }
  assert (forall a, 0 <= a < 256 ->
            stored a = Z.max 64 (Z.min 168 (64 + (a - 38) / 2))) as Hstored.
  { intros a Hr. unfold stored, tractor_set_engine_speed_setpoint.
    rewrite Hst. cbn [engine_speed_setpoint with_setpoint].
    destruct (Hform a Hr) as [-> _].
    unfold ENGINE_SPEED_MAX, ENGINE_SPEED_IDLE.
    destruct (Z.gtb_spec (64 + (a - 38) / 2) 168);
      destruct (Z.ltb_spec (64 + (a - 38) / 2) 64); lia. }
  destruct (Hform adc ltac:(lia)) as [Hv _].
  rewrite (Hstored adc), (Hstored adc') by lia.
  unfold ENGINE_SPEED_IDLE, ENGINE_SPEED_MAX, ADC_THROTTLE_IDLE in *.
  assert ((adc - 38) / 2 <= (adc' - 38) / 2) by (apply Z.div_le_mono; lia).
  assert (adc <= 39 -> (adc - 38) / 2 < 1)
    by (intro; apply Z.div_lt_upper_bound; lia).
  assert (246 <= adc -> 104 <= (adc - 38) / 2)
    by (intro; apply Z.div_le_lower_bound; lia).
  split; [exact Hv|]. repeat split; intros; lia.
Qed.

Lemma throttle_to_setpoint_witness :
  status (tractor model_cruising) = ENGINE_RUNNING /\
  engine_speed_setpoint
    (tractor_set_engine_speed_setpoint (throttle_setpoint 0)
       (tractor model_cruising)) = ENGINE_SPEED_IDLE /\
  throttle_setpoint 230 = 160.
Proof.
  destruct (throttle_to_setpoint 0 230 (tractor model_cruising))
    as (_ & _ & Hlow & _); [lia | lia | reflexivity |].
  destruct (throttle_to_setpoint 230 230 (tractor model_cruising))
    as (Hv & _); [lia | lia | reflexivity |].
  split; [reflexivity|]. split; [apply Hlow; lia|].
  rewrite Hv. reflexivity.
Defined.

(** X13: the soft PWM of the TIMER0 interrupt: in the 64 interrupts that
    follow a wrap of its counter the DC MOTOR pin is high during the first
    [duty] of them and low during the rest, whatever the pin was before, and
    the counter is back at the wrap, so every period repeats the pattern. *)
Theorem soft_pwm_period : forall duty s,
  0 <= duty <= 64 ->
  pwm_timer s = 63 ->
  motor_pin_trace duty 64 s =
    repeat true (Z.to_nat duty) ++ repeat false (64 - Z.to_nat duty) /\
  pwm_timer (timer0_interrupts duty 64 s) = 63 /\
  update_audio_sample (timer0_interrupts duty 64 s) = true.
Proof.
  intros duty [flag timer pin] Hd Ht. cbn [pwm_timer] in Ht. subst timer.
  assert (exists k, (k <= 64)%nat /\ duty = Z.of_nat k) as (k & Hk & ->)
    by (exists (Z.to_nat duty); lia).
  destruct flag, pin;
    do 65 (destruct k as [|k]; [vm_compute; repeat split|]); lia.
Qed.

Lemma soft_pwm_period_witness :
  0 <= 58 <= 64 /\
  motor_pin_trace 58 64
    {| update_audio_sample := false; pwm_timer := 63;
       dc_motor_pin := false |} =
  repeat true 58 ++ repeat false 6.
Proof.
  split; [lia|].
  destruct (soft_pwm_period 58
              {| update_audio_sample := false; pwm_timer := 63;
                 dc_motor_pin := false |}) as (Htrace & _);
    [lia | reflexivity | exact Htrace].
Defined.

(** ** main: the model update *)

Lemma level_pressed : forall adc_value b,
  button_level b = button_new_level adc_value ->
  button_is_pressed BUTTON_START b = (ADC_THRESHOLD_ON_HORN <? adc_value) /\
  button_is_pressed BUTTON_ON b = (ADC_THRESHOLD_OFF <? adc_value) /\
  Z.testbit (button_level b) BUTTON_HORN =
    ((ADC_THRESHOLD_ON <? adc_value) && (adc_value <=? ADC_THRESHOLD_ON_HORN)
     || (ADC_THRESHOLD_ON_START <? adc_value)).
Proof.
  intros adc b Hl. unfold button_is_pressed. rewrite Hl.
  unfold button_new_level, ADC_THRESHOLD_OFF, ADC_THRESHOLD_ON,
    ADC_THRESHOLD_ON_HORN, ADC_THRESHOLD_ON_START.
  destruct (Z.leb_spec adc 23); destruct (Z.leb_spec adc 63);
    destruct (Z.leb_spec adc 99); destruct (Z.leb_spec adc 186);
    try lia;
    destruct (Z.ltb_spec 23 adc); destruct (Z.ltb_spec 63 adc);
    destruct (Z.ltb_spec 99 adc); destruct (Z.ltb_spec 186 adc);
    try lia; repeat split.
Qed.

Lemma update_keeps_ignition : forall t,
  ignition_position (fst (tractor_update_status t)) = ignition_position t.
Proof.
  intros [es hc st sp ig cc lc]. destruct st; tractor_unfold.
  - destruct (ig =? 2); reflexivity.
  - destruct (u8 (cc + 1) >? CRANKING_MINIMUM_TIME); [|destruct (ig =? 2)];
      reflexivity.
  - destruct (ig =? 0); [reflexivity|].
    destruct (u8 (Z.shiftr es 8) >=? ENGINE_SPEED_MIN);
      [destruct (u16 (hc + 1) =? HORN_CYCLE / 2);
       [|destruct (u16 (hc + 1) >=? HORN_CYCLE)]|];
      tractor_unfold; destruct (u8 (lc + 1) >? LED_CYCLE); reflexivity.
Qed.

Lemma setpoint_keeps_ignition : forall sp t,
  ignition_position (tractor_set_engine_speed_setpoint sp t) =
  ignition_position t /\
  status (tractor_set_engine_speed_setpoint sp t) = status t /\
  cranking_counter (tractor_set_engine_speed_setpoint sp t) =
  cranking_counter t.
Proof.
  intros sp t. unfold tractor_set_engine_speed_setpoint.
  destruct (status t) eqn:E; repeat split; auto.
Qed.

(** The key position [main] derives from the button ADC value. *)
Lemma main_update_tractor : forall adc_b adc_t f,
  exists hc,
    tractor (model (main_model_update adc_b adc_t f)) =
    fst (tractor_update_status
           (tractor_set_engine_speed_setpoint (throttle_setpoint adc_t)
              (with_ignition
                 (if ADC_THRESHOLD_ON_HORN <? adc_b then IGNITION_START
                  else if ADC_THRESHOLD_OFF <? adc_b then IGNITION_ON
                  else IGNITION_OFF)
                 (with_horn_counter hc (tractor (model f)))))).
Proof.
  intros adc_b adc_t f. unfold main_model_update.
  set (b1 := button_set_adc_value adc_b (buttons f)).
  destruct (level_pressed adc_b (snd (button_is_clicked BUTTON_HORN b1))
              eq_refl) as (Hstart & Hon & _).
  destruct (button_is_clicked BUTTON_HORN b1) as [clicked b2] eqn:Eb.
  cbn [snd] in Hstart, Hon. rewrite Hstart, Hon.
  set (position := if ADC_THRESHOLD_ON_HORN <? adc_b then IGNITION_START
                   else if ADC_THRESHOLD_OFF <? adc_b then IGNITION_ON
                   else IGNITION_OFF).
  assert (exists hc,
            tractor (if clicked then tractor_play_dixie_song (model f)
                     else model f) =
            with_horn_counter hc (tractor (model f))) as [hc Hhc].
  { destruct clicked; unfold tractor_play_dixie_song;
      [destruct (ignition_position (tractor (model f)) =? IGNITION_OFF)|];
      try (exists 0; reflexivity);
      exists (horn_counter (tractor (model f)));
      destruct (tractor (model f)); reflexivity. }
  exists hc. rewrite Hhc. unfold tractor_set_ignition_position.
  match goal with
  | |- context [tractor_update_model ?m] =>
      pose proof (update_model_tractor m) as Hu;
      destruct (tractor_update_model m) as [led m']
  end.
  cbn [model tractor snd] in *. exact Hu.
Qed.

(** X15: after a model update of [main] the ignition position is the one of
    the key, read off the button ADC value: START above
    [ADC_THRESHOLD_ON_HORN], otherwise ON above [ADC_THRESHOLD_OFF],
    otherwise OFF; the horn button has no part in it. *)
Theorem ignition_follows_key : forall adc_b adc_t f,
  ignition_position (tractor (model (main_model_update adc_b adc_t f))) =
  if ADC_THRESHOLD_ON_HORN <? adc_b then IGNITION_START
  else if ADC_THRESHOLD_OFF <? adc_b then IGNITION_ON
  else IGNITION_OFF.
Proof.
  intros adc_b adc_t f.
  destruct (main_update_tractor adc_b adc_t f) as [hc ->].
  rewrite update_keeps_ignition.
  destruct (setpoint_keeps_ignition (throttle_setpoint adc_t)
              (with_ignition
                 (if ADC_THRESHOLD_ON_HORN <? adc_b then IGNITION_START
                  else if ADC_THRESHOLD_OFF <? adc_b then IGNITION_ON
                  else IGNITION_OFF)
                 (with_horn_counter hc (tractor (model f))))) as [-> _].
  reflexivity.
Qed.

Lemma not_started_step : forall n position hc sp t,
  0 <= n <= CRANKING_MINIMUM_TIME ->
  not_started n t ->
  not_started (n + 1)
    (fst (tractor_update_status
            (tractor_set_engine_speed_setpoint sp
               (with_ignition position (with_horn_counter hc t))))).
Proof.
  intros n position hc' sp' [es hc st sp ig cc lc] Hn Hearly.
  unfold not_started in *. cbn [status cranking_counter] in Hearly.
  change CRANKING_MINIMUM_TIME with 100 in *.
  unfold tractor_set_engine_speed_setpoint.
  destruct st; [| |contradiction]; tractor_unfold.
  - destruct (position =? 2); tractor_unfold; [lia | exact I].
  - change CRANKING_MINIMUM_TIME with 100.
    rewrite (u8_small (cc + 1)) by lia.
    destruct (Z.gtb_spec (cc + 1) 100); [lia|].
    destruct (position =? 2); tractor_unfold; [lia | exact I].
Qed.

Lemma start_progress_step : forall n hc sp t,
  0 <= n <= CRANKING_MINIMUM_TIME + 1 ->
  start_progress n t ->
  start_progress (n + 1)
    (fst (tractor_update_status
            (tractor_set_engine_speed_setpoint sp
               (with_ignition IGNITION_START (with_horn_counter hc t))))).
Proof.
  intros n hc' sp' [es hc st sp ig cc lc] Hn Hp.
  unfold start_progress in *.
  cbn [status cranking_counter engine_speed_setpoint] in Hp.
  change CRANKING_MINIMUM_TIME with 100 in *.
  unfold tractor_set_engine_speed_setpoint.
  destruct Hp as [[-> ->] | [(Hr & -> & ->) | [-> _]]]; [| |lia];
    tractor_unfold; change CRANKING_MINIMUM_TIME with 100.
  - change (2 =? 2) with true. tractor_unfold.
    right; left. repeat split; lia.
  - change (2 =? 2) with true. rewrite (u8_small (n - 1 + 1)) by lia.
    destruct (Z.gtb_spec (n - 1 + 1) 100); tractor_unfold.
    + right; right. repeat split; lia.
    + right; left. repeat split; lia.
Qed.

(** X16: starting the engine through [main]: from status OFF no sequence of
    ADC readings brings the engine to RUNNING in fewer than 102 model
    updates, and 102 updates with the key read at START (button ADC value
    above [ADC_THRESHOLD_ON_HORN]) do, leaving the setpoint at idle,
    whatever the throttle and the horn button do meanwhile. *)
Theorem engine_start_takes_102_updates : forall readings f,
  status (tractor (model f)) = ENGINE_OFF ->
  let t := tractor (model (main_model_updates readings f)) in
  ((length readings <= 101)%nat -> status t <> ENGINE_RUNNING) /\
  (length readings = 102%nat ->
   Forall (fun r => ADC_THRESHOLD_ON_HORN < fst r) readings ->
   status t = ENGINE_RUNNING /\
   engine_speed_setpoint t = ENGINE_SPEED_IDLE).
Proof.
  intros readings f Hoff t. split.
  - intro Hlen.
    assert (forall rs g n,
              0 <= n -> n + Z.of_nat (length rs) <= 101 ->
              not_started n (tractor (model g)) ->
              not_started (n + Z.of_nat (length rs))
                (tractor (model (main_model_updates rs g)))) as Hgen.
    { induction rs as [|r rs IH]; intros g n Hn Hle Hg.
      - cbn [length Z.of_nat]. rewrite Z.add_0_r. exact Hg.
      - unfold main_model_updates in *. cbn [fold_left].
        replace (n + Z.of_nat (length (r :: rs)))
          with (n + 1 + Z.of_nat (length rs)) by (cbn [length]; lia).
        cbn [length] in Hle.
        apply IH; [lia | lia |].
        destruct (main_update_tractor (fst r) (snd r) g) as [hc ->].
        apply not_started_step; [change CRANKING_MINIMUM_TIME with 100; lia|].
        exact Hg. }
    specialize (Hgen readings f 0 ltac:(lia) ltac:(lia)).
    unfold not_started at 1 in Hgen. rewrite Hoff in Hgen.
    specialize (Hgen I). unfold not_started in Hgen. fold t in Hgen.
    intro Hrun. rewrite Hrun in Hgen. exact Hgen.
  - intros Hlen Hall.
    assert (forall rs g n,
              0 <= n -> n + Z.of_nat (length rs) <= 102 ->
              Forall (fun r => ADC_THRESHOLD_ON_HORN < fst r) rs ->
              start_progress n (tractor (model g)) ->
              start_progress (n + Z.of_nat (length rs))
                (tractor (model (main_model_updates rs g)))) as Hgen.
    { induction rs as [|r rs IH]; intros g n Hn Hle Hrs Hg.
      - cbn [length Z.of_nat]. rewrite Z.add_0_r. exact Hg.
      - unfold main_model_updates in *. cbn [fold_left].
        replace (n + Z.of_nat (length (r :: rs)))
          with (n + 1 + Z.of_nat (length rs)) by (cbn [length]; lia).
        cbn [length] in Hle. inversion Hrs as [|? ? Hr Hrest]; subst.
        apply IH; [lia | lia | exact Hrest |].
        destruct (main_update_tractor (fst r) (snd r) g) as [hc ->].
        replace (ADC_THRESHOLD_ON_HORN <? fst r) with true
          by (symmetry; apply Z.ltb_lt; exact Hr).
        apply start_progress_step;
          [change CRANKING_MINIMUM_TIME with 100; lia | exact Hg]. }
    specialize (Hgen readings f 0 ltac:(lia) ltac:(lia) Hall
                  (or_introl (conj eq_refl Hoff))).
    rewrite Hlen in Hgen. fold t in Hgen.
    change CRANKING_MINIMUM_TIME with 100 in Hgen.
    destruct Hgen as [[Hf _] | [(Hf & _) | (_ & Hst & Hsp)]];
      [cbn in Hf; lia | cbn in Hf; lia | split; assumption].
Qed.

Lemma engine_start_takes_102_updates_witness :
  status (tractor (model firmware_init)) = ENGINE_OFF /\
  status (tractor (model (main_model_updates (repeat (128, 0) 102)
                            firmware_init))) = ENGINE_RUNNING /\
  status (tractor (model (main_model_updates (repeat (128, 0) 101)
                            firmware_init))) <> ENGINE_RUNNING.
Proof.
  destruct (engine_start_takes_102_updates (repeat (128, 0) 102)
              firmware_init eq_refl) as [_ Hstart].
  destruct (engine_start_takes_102_updates (repeat (128, 0) 101)
              firmware_init eq_refl) as [Hearly _].
  split; [reflexivity|]. split.
  - apply Hstart; [reflexivity|].
    apply Forall_forall. intros r Hr. apply repeat_spec in Hr. subst r.
    reflexivity.
  - apply Hearly. cbn. lia.
Defined.

Lemma horn_bit_cleared : forall b,
  0 <= button_clicked b < 256 ->
  Z.testbit (button_clicked (snd (button_is_clicked BUTTON_HORN b)))
            BUTTON_HORN = false.
Proof.
  intros b Hc. rewrite click_read_bits by exact Hc.
  rewrite mask_pow2 by (unfold BUTTON_HORN; lia).
  rewrite Z.pow2_bits_true by (unfold BUTTON_HORN; lia).
  apply andb_false_r.
Qed.

Lemma quiet_status_update : forall t,
  status t <> ENGINE_RUNNING -> snd (tractor_update_status t) = None.
Proof.
  intros [es hc st sp ig cc lc] Hst. cbn in Hst.
  destruct st; [reflexivity | reflexivity | congruence].
Qed.

(** X19: with the ignition position OFF and the engine not RUNNING, a model
    update of [main] starts no song whatever the buttons do: the horn
    player only receives its tick, and a click of the horn button that
    arrives with this update is consumed, not kept for later. *)
Theorem horn_click_lost_while_off : forall adc_b adc_t f,
  ignition_position (tractor (model f)) = IGNITION_OFF ->
  status (tractor (model f)) <> ENGINE_RUNNING ->
  let f' := main_model_update adc_b adc_t f in
  horn_player (model f') = audio_horn_manager (horn_player (model f)) /\
  Z.testbit (button_clicked (buttons f')) BUTTON_HORN = false.
Proof.
  intros adc_b adc_t f Hig Hst f'. unfold f', main_model_update.
  set (b1 := button_set_adc_value adc_b (buttons f)).
  pose proof (horn_bit_cleared b1 ltac:(apply u8_range)) as Hbit.
  destruct (button_is_clicked BUTTON_HORN b1) as [clicked b2].
  cbn [snd] in Hbit.
  assert ((if clicked then tractor_play_dixie_song (model f) else model f) =
          model f) as ->.
  { destruct clicked; [|reflexivity]. unfold tractor_play_dixie_song.
    rewrite Hig. reflexivity. }
  set (position := if button_is_pressed BUTTON_START b2 then IGNITION_START
                   else if button_is_pressed BUTTON_ON b2 then IGNITION_ON
                   else IGNITION_OFF).
  set (t := tractor_set_engine_speed_setpoint (throttle_setpoint adc_t)
              (tractor_set_ignition_position position (tractor (model f)))).
  assert (status t <> ENGINE_RUNNING) as Hst'.
  { unfold t.
    destruct (setpoint_keeps_ignition (throttle_setpoint adc_t)
                (tractor_set_ignition_position position (tractor (model f))))
      as (_ & -> & _).
    destruct (tractor (model f)); exact Hst. }
  unfold tractor_update_model. cbn [tractor horn_player].
  pose proof (quiet_status_update t Hst') as Hq.
  destruct (tractor_update_status t) as [t' request]. cbn [snd] in Hq.
  subst request. cbn [model buttons horn_player].
  split; [reflexivity | exact Hbit].
Qed.

Lemma horn_click_lost_while_off_witness :
  ignition_position (tractor (model firmware_init)) = IGNITION_OFF /\
  status (tractor (model firmware_init)) <> ENGINE_RUNNING /\
  horn_player (model (main_model_update 70 0 firmware_init)) = horn_init.
Proof.
  assert (status (tractor (model firmware_init)) <> ENGINE_RUNNING) as Hst
    by (intro H; discriminate H).
  destruct (horn_click_lost_while_off 70 0 firmware_init eq_refl Hst)
    as [Hh _].
  split; [reflexivity|]. split; [exact Hst|].
  rewrite Hh. reflexivity.
Defined.

(** X20: with the ignition position not OFF, a rising edge of the horn
    button decoded by a model update of [main] starts the Dixie song in
    that same update: the horn player holds the song at its first note,
    one tick played, and the automatic honk cycle restarts (no automatic
    honk replaces the song in that update). *)
Theorem horn_click_plays_dixie : forall adc_b adc_t f,
  ignition_position (tractor (model f)) <> IGNITION_OFF ->
  Z.testbit (button_level (buttons f)) BUTTON_HORN = false ->
  Z.testbit (button_new_level adc_b) BUTTON_HORN = true ->
  let f' := main_model_update adc_b adc_t f in
  horn_player (model f') =
    audio_horn_manager
      (audio_play_horn_song SONG_DIXIE (horn_player (model f))) /\
  playing (horn_player (model f')) = true /\
  current_note (horn_player (model f')) = 0 /\
  horn_counter (tractor (model f')) <= 1.
Proof.
  intros adc_b adc_t f Hig Hold Hnew f'. unfold f', main_model_update.
  set (b1 := button_set_adc_value adc_b (buttons f)).
  assert (fst (button_is_clicked BUTTON_HORN b1) = true) as Hclick.
  { rewrite click_read_result by (vm_compute; split; congruence).
    apply rising_edge_sets_click;
      [vm_compute; split; congruence | exact Hold | exact Hnew]. }
  destruct (button_is_clicked BUTTON_HORN b1) as [clicked b2].
  cbn [fst] in Hclick. subst clicked.
  unfold tractor_play_dixie_song.
  destruct (Z.eqb_spec (ignition_position (tractor (model f))) IGNITION_OFF)
    as [|_]; [contradiction|].
  cbn [tractor horn_player].
  set (position := if button_is_pressed BUTTON_START b2 then IGNITION_START
                   else if button_is_pressed BUTTON_ON b2 then IGNITION_ON
                   else IGNITION_OFF).
  assert (forall t,
            horn_counter t = 0 ->
            snd (tractor_update_status t) = None /\
            horn_counter (fst (tractor_update_status t)) <= 1) as Hquiet.
  { intros [es hc st sp ig cc lc] Hhc. cbn in Hhc. subst hc.
    destruct st; tractor_unfold.
    - destruct (ig =? 2); split; reflexivity || lia.
    - destruct (u8 (cc + 1) >? CRANKING_MINIMUM_TIME);
        [|destruct (ig =? 2)]; split; reflexivity || lia.
    - destruct (ig =? 0); [split; reflexivity || lia|].
      change (u16 (0 + 1) =? HORN_CYCLE / 2) with false.
      change (u16 (0 + 1) >=? HORN_CYCLE) with false.
      destruct (u8 (Z.shiftr es 8) >=? ENGINE_SPEED_MIN); tractor_unfold;
        destruct (u8 (lc + 1) >? LED_CYCLE); tractor_unfold;
        split; reflexivity || (vm_compute; congruence). }
  set (t := tractor_set_engine_speed_setpoint (throttle_setpoint adc_t)
              (tractor_set_ignition_position position
                 (with_horn_counter 0 (tractor (model f))))).
  assert (horn_counter t = 0) as Ht.
  { unfold t, tractor_set_engine_speed_setpoint.
    destruct (tractor (model f)) as [es hc st sp ig cc lc].
    destruct st; reflexivity. }
  destruct (Hquiet t Ht) as [Hreq Hhc].
  unfold tractor_update_model. cbn [tractor horn_player].
  destruct (tractor_update_status t) as [t' request].
  cbn [fst snd] in Hreq, Hhc. subst request. cbn [model horn_player tractor].
  split; [reflexivity|].
  split; [|split; [|exact Hhc]].
  - reflexivity.
  - reflexivity.
Qed.

Lemma horn_click_plays_dixie_witness :
  ignition_position (tractor model_cruising) <> IGNITION_OFF /\
  playing
    (horn_player
       (model (main_model_update 70 0
                 {| buttons := button_set_adc_value 56 buttons_init;
                    model := model_cruising;
                    sample_index := sample_index_init;
                    update_status_timer := 0; OCR1B := 128;
                    led_pin := false; output_pwm_duty_cycle := 0 |}))) =
  true.
Proof.
  assert (ignition_position (tractor model_cruising) <> IGNITION_OFF) as Hig
    by (intro H; discriminate H).
  split; [exact Hig|].
  destruct (horn_click_plays_dixie 70 0
              {| buttons := button_set_adc_value 56 buttons_init;
                 model := model_cruising;
                 sample_index := sample_index_init;
                 update_status_timer := 0; OCR1B := 128;
                 led_pin := false; output_pwm_duty_cycle := 0 |}
              Hig eq_refl eq_refl) as (_ & Hp & _).
  exact Hp.
Defined.

(** ** main: the loop *)

Section Passes.

Variable ENGINE_RUNNING : list Z.
Variable ENGINE_RUNNING_SIZE : Z.
Variable TRACTOR_HORN : list Z.
Variable TRACTOR_HORN_SIZE : Z.

Lemma pass_at_rest : forall adc_b adc_t f,
  adc_b <= ADC_THRESHOLD_OFF ->
  at_rest f ->
  let f' := main_pass ENGINE_RUNNING ENGINE_RUNNING_SIZE
              TRACTOR_HORN TRACTOR_HORN_SIZE adc_b adc_t f in
  at_rest f' /\ OCR1B f' = 128.
Proof.
  intros adc_b adc_t [b m si timer ocr led duty] Hb
    (Hbt & Hm & Hsi & Htimer & Hled & Hduty). cbv zeta.
  cbn [buttons model sample_index update_status_timer led_pin
       output_pwm_duty_cycle] in *. subst b m si led duty.
  change TRACTOR_MODEL_CYCLE with 320 in *.
  unfold main_pass.
  cbn [model buttons sample_index update_status_timer led_pin OCR1B
       output_pwm_duty_cycle].
  change (audio_get_next_sample ENGINE_RUNNING ENGINE_RUNNING_SIZE
            TRACTOR_HORN TRACTOR_HORN_SIZE
            (tractor_get_engine_speed (tractor model_init))
            (horn_player model_init) sample_index_init)
    with (sample_index_init, 128).
  cbv iota beta. cbn [update_status_timer].
  rewrite (u16_small (timer + 1)) by lia.
  change TRACTOR_MODEL_CYCLE with 320.
  destruct (Z.geb_spec (timer + 1) 320).
  - unfold main_model_update.
    cbn [model buttons sample_index update_status_timer led_pin OCR1B
         output_pwm_duty_cycle].
    assert (button_set_adc_value adc_b buttons_init = buttons_init) as ->.
    { unfold button_set_adc_value, button_new_level.
      destruct (Z.leb_spec adc_b ADC_THRESHOLD_OFF); [reflexivity | lia]. }
    change (button_is_clicked BUTTON_HORN buttons_init)
      with (false, buttons_init).
    cbv iota beta.
    change (button_is_pressed BUTTON_START buttons_init) with false.
    change (button_is_pressed BUTTON_ON buttons_init) with false.
    cbv iota.
    change (tractor_set_engine_speed_setpoint (throttle_setpoint adc_t)
              (tractor_set_ignition_position IGNITION_OFF
                 (tractor model_init)))
      with tractor_init.
    change (tractor_update_model
              {| tractor := tractor_init;
                 horn_player := horn_player model_init |})
      with (false, model_init).
    cbv iota beta.
    repeat split; try reflexivity; cbn; lia.
  - repeat split; try reflexivity; cbn; lia.
Qed.

(** X17: at rest the firmware stays at rest: with the button ADC value at
    most [ADC_THRESHOLD_OFF] (key off), from the initial state every pass
    of the loop of [main] writes the silence level 128 to the audio output
    and leaves the LED off, the motor duty cycle at 0 and the engine and
    horn as they were, whatever the throttle reads and whatever the
    wavetables hold. *)
Theorem firmware_at_rest_is_silent : forall readings,
  Forall (fun r => fst r <= ADC_THRESHOLD_OFF) readings ->
  readings <> [] ->
  let f := main_passes ENGINE_RUNNING ENGINE_RUNNING_SIZE
             TRACTOR_HORN TRACTOR_HORN_SIZE readings firmware_init in
  OCR1B f = 128 /\
  led_pin f = false /\
  output_pwm_duty_cycle f = 0 /\
  model f = model_init /\
  buttons f = buttons_init /\
  sample_index f = sample_index_init.
Proof.
  intros readings Hall Hne.
  assert (forall rs g,
            Forall (fun r => fst r <= ADC_THRESHOLD_OFF) rs ->
            at_rest g ->
            let g' := main_passes ENGINE_RUNNING ENGINE_RUNNING_SIZE
                        TRACTOR_HORN TRACTOR_HORN_SIZE rs g in
            at_rest g' /\ (OCR1B g = 128 \/ rs <> [] -> OCR1B g' = 128))
    as Hgen.
  { induction rs as [|r rs IH]; intros g Hrs Hg.
    - split; [exact Hg|]. intros [H|H]; [exact H | congruence].
    - inversion Hrs as [|? ? Hr Hrest]; subst.
      destruct (pass_at_rest (fst r) (snd r) g Hr Hg) as [Hg' Ho].
      destruct (IH _ Hrest Hg') as [Hrest' Ho'].
      unfold main_passes in *. cbv zeta. cbn [fold_left].
      split; [exact Hrest' | intros _; apply Ho'; left; exact Ho]. }
  destruct (Hgen readings firmware_init Hall) as [Hrest Ho].
  { repeat split; vm_compute; congruence. }
  destruct Hrest as (Hb & Hm & Hsi & _ & Hled & Hduty).
  cbv zeta. repeat split; try assumption. apply Ho. right. exact Hne.
Qed.

Lemma fast_pass : forall adc_b adc_t f,
  0 <= update_status_timer f ->
  update_status_timer f + 1 < TRACTOR_MODEL_CYCLE ->
  let f' := main_pass ENGINE_RUNNING ENGINE_RUNNING_SIZE
              TRACTOR_HORN TRACTOR_HORN_SIZE adc_b adc_t f in
  buttons f' = buttons f /\ model f' = model f /\
  led_pin f' = led_pin f /\
  output_pwm_duty_cycle f' = output_pwm_duty_cycle f /\
  update_status_timer f' = update_status_timer f + 1.
Proof.
  intros adc_b adc_t f H0 Ht. change TRACTOR_MODEL_CYCLE with 320 in Ht.
  unfold main_pass.
  destruct (audio_get_next_sample ENGINE_RUNNING ENGINE_RUNNING_SIZE
              TRACTOR_HORN TRACTOR_HORN_SIZE
              (tractor_get_engine_speed (tractor (model f)))
              (horn_player (model f)) (sample_index f)) as [si sample].
  cbn [update_status_timer]. rewrite u16_small by lia.
  change TRACTOR_MODEL_CYCLE with 320.
  destruct (Z.geb_spec (update_status_timer f + 1) 320); [lia|].
  cbv zeta. repeat split.
Qed.

Lemma slow_pass : forall adc_b adc_t f,
  update_status_timer f + 1 = TRACTOR_MODEL_CYCLE ->
  let f' := main_pass ENGINE_RUNNING ENGINE_RUNNING_SIZE
              TRACTOR_HORN TRACTOR_HORN_SIZE adc_b adc_t f in
  let g := main_model_update adc_b adc_t f in
  buttons f' = buttons g /\ model f' = model g /\
  led_pin f' = led_pin g /\
  output_pwm_duty_cycle f' = output_pwm_duty_cycle g /\
  update_status_timer f' = 0.
Proof.
  intros adc_b adc_t f Ht. change TRACTOR_MODEL_CYCLE with 320 in Ht.
  unfold main_pass.
  destruct (audio_get_next_sample ENGINE_RUNNING ENGINE_RUNNING_SIZE
              TRACTOR_HORN TRACTOR_HORN_SIZE
              (tractor_get_engine_speed (tractor (model f)))
              (horn_player (model f)) (sample_index f)) as [si sample].
  cbn [update_status_timer]. rewrite Ht.
  change (u16 320 >=? TRACTOR_MODEL_CYCLE) with true. cbv iota zeta.
  unfold main_model_update.
  cbn [buttons model sample_index update_status_timer OCR1B led_pin
       output_pwm_duty_cycle].
  destruct (button_is_clicked BUTTON_HORN
              (button_set_adc_value adc_b (buttons f))) as [clicked b2].
  match goal with
  | |- context [tractor_update_model ?m] =>
      destruct (tractor_update_model m) as [led m']
  end.
  repeat split.
Qed.

Lemma fast_passes : forall rs g,
  0 <= update_status_timer g ->
  update_status_timer g + Z.of_nat (length rs) < TRACTOR_MODEL_CYCLE ->
  let g' := main_passes ENGINE_RUNNING ENGINE_RUNNING_SIZE
              TRACTOR_HORN TRACTOR_HORN_SIZE rs g in
  buttons g' = buttons g /\ model g' = model g /\
  led_pin g' = led_pin g /\
  output_pwm_duty_cycle g' = output_pwm_duty_cycle g /\
  update_status_timer g' = update_status_timer g + Z.of_nat (length rs).
Proof.
  induction rs as [|x rs IH]; intros g H0 Hlt.
  - cbn [length Z.of_nat]. rewrite Z.add_0_r. repeat split.
  - cbn [length] in Hlt.
    destruct (fast_pass (fst x) (snd x) g H0 ltac:(lia))
      as (Hb & Hm & Hl & Hd & Ht).
    specialize (IH (main_pass ENGINE_RUNNING ENGINE_RUNNING_SIZE
                      TRACTOR_HORN TRACTOR_HORN_SIZE (fst x) (snd x) g)).
    destruct IH as (Hb' & Hm' & Hl' & Hd' & Ht'); [lia | lia |].
    unfold main_passes in *. cbv zeta. cbn [fold_left].
    rewrite Hb', Hm', Hl', Hd', Ht', Hb, Hm, Hl, Hd, Ht.
    cbn [length]. repeat split. lia.
Qed.

(** X18: the loop of [main] updates the model once every
    [TRACTOR_MODEL_CYCLE] = 320 passes: counted from a pass that did, the
    next 319 passes leave the buttons, the model, the LED and the motor
    duty cycle untouched, and pass 320 does to them what
    [main_model_update] does, with the ADC values read on that pass. *)
Theorem model_updated_every_320_passes : forall readings r f,
  update_status_timer f = 0 ->
  length readings = 319%nat ->
  let f1 := main_passes ENGINE_RUNNING ENGINE_RUNNING_SIZE
              TRACTOR_HORN TRACTOR_HORN_SIZE readings f in
  let f2 := main_pass ENGINE_RUNNING ENGINE_RUNNING_SIZE
              TRACTOR_HORN TRACTOR_HORN_SIZE (fst r) (snd r) f1 in
  let g := main_model_update (fst r) (snd r) f in
  (buttons f1 = buttons f /\ model f1 = model f /\
   led_pin f1 = led_pin f /\
   output_pwm_duty_cycle f1 = output_pwm_duty_cycle f) /\
  (buttons f2 = buttons g /\ model f2 = model g /\
   led_pin f2 = led_pin g /\
   output_pwm_duty_cycle f2 = output_pwm_duty_cycle g /\
   update_status_timer f2 = 0).
Proof.
  intros readings r f Hzero Hlen f1.
  destruct (fast_passes readings f) as (Hb & Hm & Hl & Hd & Ht).
  { lia. }
  { rewrite Hzero, Hlen. vm_compute. reflexivity. }
  fold f1 in Hb, Hm, Hl, Hd, Ht.
  cbv zeta. split; [repeat split; assumption|].
  destruct (slow_pass (fst r) (snd r) f1) as (Hb2 & Hm2 & Hl2 & Hd2 & Ht2).
  { rewrite Ht, Hzero, Hlen. reflexivity. }
  rewrite Hb2, Hm2, Hl2, Hd2, Ht2.
  unfold main_model_update. rewrite Hb, Hm.
  destruct (button_is_clicked BUTTON_HORN
              (button_set_adc_value (fst r) (buttons f))) as [clicked b2].
  match goal with
  | |- context [tractor_update_model ?m] =>
      destruct (tractor_update_model m) as [led m']
  end.
  repeat split.
Qed.

End Passes.

Lemma firmware_at_rest_is_silent_witness :
  OCR1B (main_passes engine_table_sample 4 horn_table_sample 4
           (repeat (0, 200) 400) firmware_init) = 128.
Proof.
  destruct (firmware_at_rest_is_silent engine_table_sample 4
              horn_table_sample 4 (repeat (0, 200) 400)) as [Ho _].
  - apply Forall_forall. intros r Hr. apply repeat_spec in Hr. subst r.
    vm_compute. congruence.
  - intro H. discriminate H.
  - exact Ho.
Defined.

Lemma model_updated_every_320_passes_witness :
  update_status_timer firmware_init = 0 /\
  length (repeat (128, 0) 319) = 319%nat /\
  model (main_pass engine_table_sample 4 horn_table_sample 4 128 0
           (main_passes engine_table_sample 4 horn_table_sample 4
              (repeat (128, 0) 319) firmware_init)) =
  model (main_model_update 128 0 firmware_init).
Proof.
  destruct (model_updated_every_320_passes engine_table_sample 4
              horn_table_sample 4 (repeat (128, 0) 319) (128, 0)
              firmware_init eq_refl eq_refl) as (_ & _ & Hm & _).
  split; [reflexivity|]. split; [reflexivity | exact Hm].
Defined.
